(** * Convergence controller of the Ceph NFS charm (src/charm.py)

    A shallow embedding of the event handlers of [CephNfsCharm]: every
    handler is a computation in a small state-and-exception monad over a
    [World] that holds the stored flags, the peer data, the local files,
    the object pool, the trace of external calls, the log and the event
    object handed to the handler. *)

From Stdlib Require Import ZArith Ascii String.
From stdpp Require Import base option list strings gmap sorting.

Local Open Scope string_scope.

(** ** Data *)

(** [self._stored], with the defaults of [set_default] in [__init__]. *)
Record StoredState := mkStored {
  is_started : bool;
  is_cluster_setup : bool
}.

Definition stored_default : StoredState :=
  {| is_started := false; is_cluster_setup := false |}.

(** Modelled from the spec: the peer interface (interface_ceph_nfs_peer,
    the object behind [self.peers]) is not under src/.  Its data is the
    one-way latch [pool_initialised] and the counter [reload_nonce]. *)
Record PeerData := mkPeers {
  pool_initialised : bool;
  reload_nonce : nat
}.

(** The event object a handler receives: [defer()], and for an action
    event [fail(msg)] and [set_results(dict)].  A result value is a
    string or Python's None. *)
Record Event := mkEvent {
  deferred : bool;
  failure : option string;
  results : option (gmap string (option string))
}.

Definition fresh_event : Event :=
  {| deferred := false; failure := None; results := None |}.

Inductive level := INFO | WARNING | ERROR.

(** What a handler does to the outside, in the order it does it. *)
Inductive effect :=
| Exec (argv : list string) (rc : Z)
| Mkdir (path : string) (mode : Z)
| Render (source target : string)
| CreateReplicatedPool (name app : string) (replicas weight : option string)
                       (kwargs : list (string * string))
| RequestCephPermissions (client : string) (caps : list string)
| InitialisedPool
| TriggerReload
| CreateShare (client pool : string) (size : option Z)
| UpdateStatus.

Inductive exn :=
| CalledProcessError (rc : Z) (cmd : list string)
| OSError (path : string)
| TemplateError (target : string)
| ShareError.

Record World := mkWorld {
  stored : StoredState;
  peers : PeerData;
  files : gmap string string;      (* contents on disk *)
  buffers : gmap string string;    (* text written to an open file, not flushed *)
  objects : list (string * string);(* puts the pool accepted, oldest first *)
  trace : list effect;             (* oldest first *)
  log : list (level * string);
  event : Event
}.

(** The facts a handler reads but does not own. *)
Record Env := mkEnv {
  app_name : string;                          (* self.app.name *)
  hostname : string;                          (* socket.gethostname() *)
  config : gmap string string;                (* self.model.config *)
  is_leader : bool;                           (* self.model.unit.is_leader() *)
  broker_available : bool;                    (* self.ceph_client.broker_available *)
  pools_available : bool;                     (* self.ceph_client.pools_available *)
  proc : list string -> Z;                    (* exit status of a command *)
  tmp_suffix : string;                        (* random part of a temporary file's name *)
  mkdir_ok : bool;
  template : string -> option string;         (* rendered text of a target, None: render raises *)
  bluestore_compression : string + list (string * string); (* inl: ValueError *)
  hacluster : bool;                           (* self.model.get_relation('hacluster') *)
  ingress_address : string;
  params : gmap string Z;                     (* event.params *)
  ganesha_create_share : option Z -> option string (* None: create_share raises *)
}.

(** ** The monad *)

Inductive result (A : Type) :=
| Ok (a : A)
| Raise (x : exn).
Arguments Ok {A} a.
Arguments Raise {A} x.

Definition M (A : Type) : Type := World -> result A * World.

Definition ret {A} (a : A) : M A := fun w => (Ok a, w).

Definition bind {A B} (m : M A) (k : A -> M B) : M B :=
  fun w => match m w with
           | (Ok a, w') => k a w'
           | (Raise x, w') => (Raise x, w')
           end.

Definition raise {A} (x : exn) : M A := fun w => (Raise x, w).

Definition is_CalledProcessError (x : exn) : bool :=
  match x with CalledProcessError _ _ => true | _ => false end.

(** [try: body except subprocess.CalledProcessError: handler]; any other
    exception passes through. *)
Definition try_except_CalledProcessError {A} (body handler : M A) : M A :=
  fun w => match body w with
           | (Ok a, w') => (Ok a, w')
           | (Raise x, w') =>
               if is_CalledProcessError x then handler w' else (Raise x, w')
           end.

Declare Scope py_scope.
Delimit Scope py_scope with py.
Notation "x <- m ;; k" := (bind m (fun x => k))
  (at level 100, m at next level, right associativity) : py_scope.
Notation "m ;; k" := (bind m (fun _ => k))
  (at level 100, right associativity) : py_scope.
Local Open Scope py_scope.

Definition get {A} (f : World -> A) : M A := fun w => (Ok (f w), w).
Definition modify (f : World -> World) : M unit := fun w => (Ok tt, f w).

(** ** Setters *)

Definition with_stored (s : StoredState) (w : World) : World :=
  mkWorld s (peers w) (files w) (buffers w) (objects w) (trace w) (log w) (event w).
Definition with_peers (p : PeerData) (w : World) : World :=
  mkWorld (stored w) p (files w) (buffers w) (objects w) (trace w) (log w) (event w).
Definition with_files (f : gmap string string) (w : World) : World :=
  mkWorld (stored w) (peers w) f (buffers w) (objects w) (trace w) (log w) (event w).
Definition with_buffers (b : gmap string string) (w : World) : World :=
  mkWorld (stored w) (peers w) (files w) b (objects w) (trace w) (log w) (event w).
Definition with_objects (o : list (string * string)) (w : World) : World :=
  mkWorld (stored w) (peers w) (files w) (buffers w) o (trace w) (log w) (event w).
Definition with_trace (t : list effect) (w : World) : World :=
  mkWorld (stored w) (peers w) (files w) (buffers w) (objects w) t (log w) (event w).
Definition with_log (l : list (level * string)) (w : World) : World :=
  mkWorld (stored w) (peers w) (files w) (buffers w) (objects w) (trace w) l (event w).
Definition with_event (e : Event) (w : World) : World :=
  mkWorld (stored w) (peers w) (files w) (buffers w) (objects w) (trace w) (log w) e.

Definition emit (x : effect) : M unit :=
  modify (fun w => with_trace (trace w ++ [x]) w).

Definition logging (l : level) (msg : string) : M unit :=
  modify (fun w => with_log (log w ++ [(l, msg)]) w).

(** [self._stored.is_started = b] and [self._stored.is_cluster_setup = b]. *)
Definition set_is_started (b : bool) : M unit :=
  modify (fun w => with_stored (mkStored b (is_cluster_setup (stored w))) w).
Definition set_is_cluster_setup (b : bool) : M unit :=
  modify (fun w => with_stored (mkStored (is_started (stored w)) b) w).

(** [event.defer()], [event.fail(msg)], [event.set_results(d)]. *)
Definition defer : M unit :=
  modify (fun w => with_event (mkEvent true (failure (event w)) (results (event w))) w).
Definition fail (msg : string) : M unit :=
  modify (fun w => with_event (mkEvent (deferred (event w)) (Some msg) (results (event w))) w).
Definition set_results (d : gmap string (option string)) : M unit :=
  modify (fun w => with_event (mkEvent (deferred (event w)) (failure (event w)) (Some d)) w).

(** Modelled from the spec: [self.peers.initialised_pool()] sets the
    one-way latch and [self.peers.trigger_reload()] bumps the nonce; both
    belong to the peer interface, which is not under src/. *)
Definition initialised_pool : M unit :=
  emit InitialisedPool ;;
  modify (fun w => with_peers (mkPeers true (reload_nonce (peers w))) w).
Definition trigger_reload : M unit :=
  emit TriggerReload ;;
  modify (fun w => with_peers (mkPeers (pool_initialised (peers w)) (S (reload_nonce (peers w)))) w).

(** ** Local files and external commands *)

Fixpoint for_ {A} (l : list A) (body : A -> M unit) : M unit :=
  match l with
  | [] => ret tt
  | x :: l' => body x ;; for_ l' body
  end.

(** Reading a path as a command does: /dev/null is empty. *)
Definition read_file (path : string) (w : World) : string :=
  if decide (path = "/dev/null") then "" else default "" (files w !! path).

(** The object-storage boundary: a [rados -p P -c C --id I put OBJ SRC]
    that exits 0 stores the content of SRC under OBJ. *)
Definition rados_put (argv : list string) (w : World) : World :=
  match argv with
  | [prog; _; _; _; _; _; _; verb; obj; src] =>
      if decide (prog = "rados" /\ verb = "put")
      then with_objects (objects w ++ [(obj, read_file src w)]) w
      else w
  | _ => w
  end.

(** [os.path.basename]. *)
Fixpoint basename_from (acc s : string) : string :=
  match s with
  | EmptyString => acc
  | String c s' =>
      if Ascii.eqb c "/"%char then basename_from "" s'
      else basename_from (acc ++ String c "") s'
  end.
Definition basename (path : string) : string := basename_from "" path.

(** [pathlib.Path.__truediv__]. *)
Definition path_join (dir name : string) : string := dir ++ "/" ++ name.

(** Keeps the first occurrence of each element, as
    [list(OrderedDict.fromkeys(...))] does. *)
Fixpoint ordered_unique (seen l : list string) : list string :=
  match l with
  | [] => []
  | x :: l' =>
      if decide (x ∈ seen) then ordered_unique seen l'
      else x :: ordered_unique (x :: seen) l'
  end.

Fixpoint dict_get {V} (key : string) (d : list (string * V)) : option V :=
  match d with
  | [] => None
  | (k, v) :: d' => if decide (k = key) then Some v else dict_get key d'
  end.

Definition dquote : string := String (Ascii.ascii_of_nat 34) "".

(** ** The charm *)

Section Charm.
Context (e : Env).

(** Runs a command: the exit status comes from the environment. *)
Definition run (argv : list string) : M Z :=
  let rc := proc e argv in
  emit (Exec argv rc) ;;
  (if decide (rc = 0%Z) then modify (rados_put argv) else ret tt) ;;
  ret rc.

(** [subprocess.call]: returns the exit status, never raises on it. *)
Definition call (argv : list string) : M Z := run argv.

(** [subprocess.check_call]: raises CalledProcessError on a non-zero
    exit status. *)
Definition check_call (argv : list string) : M unit :=
  rc <- run argv ;;
  if decide (rc = 0%Z) then ret tt else raise (CalledProcessError rc argv).

(** [tempfile.NamedTemporaryFile('w+')], [f.write(text)] (buffered) and
    [f.seek(0)] (which flushes the buffer); a file object is its name,
    a fresh one under the temporary directory. *)
Definition tmp_name : string := "/tmp/tmp" ++ tmp_suffix e.
Definition NamedTemporaryFile : M string :=
  modify (fun w => with_files (<[tmp_name := ""]> (files w))
                     (with_buffers (<[tmp_name := ""]> (buffers w)) w)) ;;
  ret tmp_name.
Definition file_write (f text : string) : M unit :=
  modify (fun w => with_buffers (<[f := default "" (buffers w !! f) ++ text]> (buffers w)) w).
Definition file_seek0 (f : string) : M unit :=
  modify (fun w =>
    with_files (<[f := default "" (files w !! f) ++ default "" (buffers w !! f)]> (files w))
      (with_buffers (<[f := ""]> (buffers w)) w)).

Definition PACKAGES : list string :=
  ["nfs-ganesha-ceph"; "nfs-ganesha-rados-grace"; "ceph-common"].

Definition CEPH_CAPABILITIES : list string :=
  ["mgr"; "allow rw";
   "mds"; "allow *";
   "osd"; "allow rw";
   "mon"; "allow r, "
          ++ "allow command " ++ dquote ++ "auth del" ++ dquote ++ ", "
          ++ "allow command " ++ dquote ++ "auth caps" ++ dquote ++ ", "
          ++ "allow command " ++ dquote ++ "auth get" ++ dquote ++ ", "
          ++ "allow command " ++ dquote ++ "auth get-or-create" ++ dquote].

Definition CEPH_CONFIG_PATH : string := "/etc/ceph".
Definition GANESHA_CONFIG_PATH : string := "/etc/ganesha".
Definition CEPH_GANESHA_CONFIG_PATH : string := path_join CEPH_CONFIG_PATH "ganesha".
Definition CEPH_CONF : string := path_join CEPH_CONFIG_PATH "ceph.conf".
Definition GANESHA_KEYRING : string := path_join CEPH_GANESHA_CONFIG_PATH "ceph.keyring".
Definition GANESHA_CONF : string := path_join GANESHA_CONFIG_PATH "ganesha.conf".

Definition SERVICES : list string := ["nfs-ganesha"].

(** A dict in insertion order. *)
Definition RESTART_MAP : list (string * list string) :=
  [(GANESHA_CONF, SERVICES); (CEPH_CONF, SERVICES); (GANESHA_KEYRING, SERVICES)].

(** [self.model.config.get(key, default)]. *)
Definition config_get (key : string) (default : option string) : option string :=
  match config e !! key with
  | Some v => Some v
  | None => default
  end.

Definition pool_name : string :=
  default (app_name e) (config_get "rbd-pool-name" (Some (app_name e))).

Definition client_name : string := app_name e.

Definition request_ceph_pool : M unit :=
  if negb (broker_available e) then
    logging INFO "Cannot request ceph setup at this time"
  else
    match bluestore_compression e with
    | inl msg =>
        logging WARNING
          ("Caught ValueError, invalid value provided for configuration?: "
             ++ dquote ++ msg ++ dquote)
    | inr bcomp_kwargs =>
        let weight := config_get "ceph-pool-weight" None in
        let replicas := config_get "ceph-osd-replication-count" None in
        logging INFO "Requesting replicated pool" ;;
        emit (CreateReplicatedPool pool_name "ganesha" replicas weight bcomp_kwargs) ;;
        logging INFO "Requesting permissions" ;;
        emit (RequestCephPermissions client_name CEPH_CAPABILITIES)
    end.

(** [ch_templating.render(source, target, context)] writes the rendered
    text to the target. *)
Definition render (source target : string) : M unit :=
  match template e target with
  | Some text =>
      emit (Render source target) ;;
      modify (fun w => with_files (<[target := text]> (files w)) w)
  | None => raise (TemplateError target)
  end.

(** [Path.mkdir(exist_ok=True, mode=...)]. *)
Definition mkdir (path : string) (mode : Z) : M unit :=
  if mkdir_ok e then emit (Mkdir path mode) else raise (OSError path).

(** The file content stands for its hash; a missing file has none. *)
Definition path_hash (path : string) (w : World) : option string := files w !! path.

(** [charmhelpers.core.host.service('restart', name)]: the exit status
    becomes a boolean, nothing is raised. *)
Definition service_restart (name : string) : M unit :=
  _ <- call ["systemctl"; "restart"; name] ;; ret tt.

(** The library decorator [ch_host.restart_on_change(restart_map,
    restart_functions)]: hashes the files of the map, runs the function,
    and restarts once each service of a file whose hash changed, through
    its entry of [restart_functions] when there is one. *)
Definition restart_on_change (restart_map : list (string * list string))
    (restart_functions : list (string * (string -> M unit))) (f : M unit) : M unit :=
  checksums <- get (fun w => map (fun p => (p.1, path_hash p.1 w)) restart_map) ;;
  f ;;
  restarts <- get (fun w =>
    concat (map snd
      (filter (fun p => Some (path_hash p.1 w) <> dict_get p.1 checksums) restart_map))) ;;
  for_ (ordered_unique [] restarts) (fun service_name =>
    match dict_get service_name restart_functions with
    | Some restart => restart service_name
    | None => service_restart service_name
    end).

(** The base class's [update_status]. *)
Definition update_status : M unit := emit UpdateStatus.

(** The restart function [render_config] defines locally. *)
Definition daemon_reload_and_restart (service_name : string) : M unit :=
  check_call ["systemctl"; "daemon-reload"] ;;
  check_call ["systemctl"; "restart"; service_name].

Definition _render_configs : M unit :=
  for_ (map fst RESTART_MAP) (fun config_file =>
    render (basename config_file) config_file).

Definition render_config : M unit :=
  if negb (pools_available e) then
    logging INFO "Defering setup" ;;
    defer
  else
    mkdir CEPH_GANESHA_CONFIG_PATH 488 ;;
    let rfuncs : list (string * (string -> M unit)) := [] in
    logging INFO "Rendering config" ;;
    restart_on_change RESTART_MAP rfuncs _render_configs ;;
    logging INFO "Setting started state" ;;
    set_is_started true ;;
    update_status ;;
    logging INFO "on_pools_available: status updated".

Definition refresh_request : M unit :=
  render_config ;;
  request_ceph_pool.

Definition grace (verb : string) : list string :=
  ["ganesha-rados-grace"; "--userid"; client_name;
   "--cephconf"; CEPH_CONF; "--pool"; pool_name;
   verb; hostname e].

Definition on_departing : M unit :=
  check_call (grace "remove") ;;
  set_is_cluster_setup false.

Definition rados_put_cmd (obj src : string) : list string :=
  ["rados"; "-p"; pool_name;
   "-c"; CEPH_CONF;
   "--id"; client_name;
   "put"; obj; src].

(** Lines 284-289 of [setup_ganesha]: the grace join. *)
Definition grace_join : M unit :=
  s <- get stored ;;
  if negb (is_cluster_setup s) then
    check_call (grace "add") ;;
    set_is_cluster_setup true
  else ret tt.

(** Lines 292-313 of [setup_ganesha]: the leader's bootstrap. *)
Definition bootstrap : M unit :=
  try_except_CalledProcessError
    (check_call (rados_put_cmd "ganesha-export-index" "/dev/null") ;;
     counter <- NamedTemporaryFile ;;
     file_write counter "1000" ;;
     file_seek0 counter ;;
     check_call (rados_put_cmd "ganesha-export-counter" counter) ;;
     initialised_pool)
    (logging ERROR "Failed to setup ganesha index object" ;;
     defer).

Definition setup_ganesha : M unit :=
  grace_join ;;
  if negb (is_leader e) then ret tt
  else bootstrap.

Definition on_pool_initialised : M unit :=
  try_except_CalledProcessError
    (check_call ["systemctl"; "restart"; "nfs-ganesha"])
    (logging ERROR "Failed torestart nfs-ganesha" ;;
     defer).

Definition on_reload_nonce : M unit :=
  logging INFO "Reloading Ganesha after nonce triggered reload" ;;
  _ <- call ["killall"; "-HUP"; "ganesha.nfsd"] ;;
  ret tt.

Definition access_address : option string :=
  if hacluster e then config_get "vip" None
  else Some (ingress_address e).

(** [GaneshaNfs(client_name, pool_name).create_share(size=...)], a
    collaborator outside this file: it returns the export path or raises. *)
Definition create_share (size : option Z) : M string :=
  emit (CreateShare client_name pool_name size) ;;
  match ganesha_create_share e size with
  | Some export_path => ret export_path
  | None => raise ShareError
  end.

Definition create_share_action : M unit :=
  if negb (is_leader e) then
    fail "Share creation needs to be run from the application leader"
  else
    let share_size := params e !! "size" in
    export_path <- create_share share_size ;;
    trigger_reload ;;
    set_results (<["message" := Some "Share created"]>
                 (<["path" := Some export_path]>
                  (<["ip" := access_address]> ∅))).

End Charm.

(** ** Dispatch *)

Inductive Fact :=
| BrokerAvailable
| PoolsAvailable
| ConfigChanged
| UpgradeCharm
| PoolInitialised
| Departing
| ReloadNonce
| CreateShareAction.

(** The table [__init__] builds with [framework.observe], each fact with
    its observers in registration order. *)
Definition observers (e : Env) (f : Fact) : list (M unit) :=
  match f with
  | BrokerAvailable => [request_ceph_pool e]
  | PoolsAvailable => [render_config e; setup_ganesha e]
  | ConfigChanged => [request_ceph_pool e]
  | UpgradeCharm => [render_config e]
  | PoolInitialised => [on_pool_initialised e]
  | Departing => [on_departing e]
  | ReloadNonce => [on_reload_nonce e]
  | CreateShareAction => [create_share_action e]
  end.

(** Every observer receives the event with nothing recorded on it yet;
    an exception ends the delivery. *)
Definition deliver (e : Env) (f : Fact) : M unit :=
  for_ (observers e f) (fun handler =>
    modify (with_event fresh_event) ;;
    handler).

(** The facts reach the node one at a time, each with the environment
    of its moment. *)
Fixpoint run_facts (fs : list (Env * Fact)) (w : World) : World :=
  match fs with
  | [] => w
  | (e, f) :: fs' => run_facts fs' (deliver e f w).2
  end.

(** The two commands of the bootstrap. *)
Definition index_put (e : Env) : list string :=
  rados_put_cmd e "ganesha-export-index" "/dev/null".
Definition counter_put (e : Env) : list string :=
  rados_put_cmd e "ganesha-export-counter" (tmp_name e).

(** The world once a command has run and left its exit status. *)
Definition ran (e : Env) (argv : list string) (w : World) : World :=
  with_trace (trace w ++ [Exec argv (proc e argv)]) w.

(** ** Observations on a trace *)

(** The command puts the object [obj] into the pool. *)
Definition is_put_of (obj : string) (x : effect) : bool :=
  match x with
  | Exec [prog; _; _; _; _; _; _; verb; o; _] _ =>
      bool_decide (prog = "rados" /\ verb = "put" /\ o = obj)
  | _ => false
  end.

(** A bootstrap write: a put of the index or of the counter object. *)
Definition is_bootstrap_write (x : effect) : bool :=
  is_put_of "ganesha-export-index" x || is_put_of "ganesha-export-counter" x.

Definition bootstrap_writes (t : list effect) : list effect :=
  filter (fun x => is_bootstrap_write x = true) t.

(** A first world and a first environment, for running the handlers. *)
Definition world0 : World :=
  {| stored := stored_default;
     peers := {| pool_initialised := false; reload_nonce := 0 |};
     files := ∅; buffers := ∅; objects := []; trace := []; log := [];
     event := fresh_event |}.

Definition env0 : Env :=
  {| app_name := "ceph-nfs"; hostname := "node-0"; config := ∅;
     is_leader := true; broker_available := true; pools_available := true;
     proc := fun _ => 0%Z; tmp_suffix := "k3x9q2ab"; mkdir_ok := true;
     template := fun target => Some ("# " ++ target);
     bluestore_compression := inr [];
     hacluster := false; ingress_address := "10.0.0.7";
     params := {["size" := 10%Z]};
     ganesha_create_share := fun _ => Some "/volumes/_nogroup/share-1" |}.

(** ** Properties of computations *)

(** [m] leaves the observation [f] of the world as it found it, whether
    it returns or raises. *)
Definition keeps {A X} (f : World -> X) (m : M A) : Prop :=
  forall w, f (m w).2 = f w.

(** [m] keeps the invariant [I], whether it returns or raises. *)
Definition preserves {A} (I : World -> Prop) (m : M A) : Prop :=
  forall w, I w -> I (m w).2.

(** [m] never raises. *)
Definition returns {A} (m : M A) : Prop :=
  forall w, exists a, (m w).1 = Ok a.

(** The effects of a run that took the world from [w] to [w']. *)
Definition since (w w' : World) : list effect :=
  drop (length (trace w)) (trace w').

(** The bootstrap writes of the trace so far. *)
Definition writes_so_far (w : World) : list effect := bootstrap_writes (trace w).

(** Everything [render_config] needs from the environment to reach its
    end: the directory can be made and every target has a rendering. *)
Definition renderable (e : Env) : bool :=
  mkdir_ok e
  && forallb (fun target => bool_decide (is_Some (template e target)))
       (map fst RESTART_MAP).

(** ** More worlds and environments *)

(** An environment in which every command exits with status 1. *)
Definition env_failing : Env :=
  {| app_name := app_name env0; hostname := hostname env0; config := config env0;
     is_leader := true; broker_available := true; pools_available := true;
     proc := fun _ => 1%Z; tmp_suffix := tmp_suffix env0; mkdir_ok := true;
     template := template env0;
     bluestore_compression := bluestore_compression env0;
     hacluster := false; ingress_address := ingress_address env0;
     params := params env0;
     ganesha_create_share := ganesha_create_share env0 |}.

(** A unit that has heard of neither the broker nor the pools. *)
Definition env_waiting : Env :=
  {| app_name := app_name env0; hostname := hostname env0; config := config env0;
     is_leader := true; broker_available := false; pools_available := false;
     proc := fun _ => 0%Z; tmp_suffix := tmp_suffix env0; mkdir_ok := true;
     template := template env0;
     bluestore_compression := bluestore_compression env0;
     hacluster := false; ingress_address := ingress_address env0;
     params := params env0;
     ganesha_create_share := ganesha_create_share env0 |}.

(** A unit that is not the leader. *)
Definition env_follower : Env :=
  {| app_name := app_name env0; hostname := "node-1"; config := config env0;
     is_leader := false; broker_available := true; pools_available := true;
     proc := fun _ => 0%Z; tmp_suffix := tmp_suffix env0; mkdir_ok := true;
     template := template env0;
     bluestore_compression := bluestore_compression env0;
     hacluster := false; ingress_address := "10.0.0.8";
     params := params env0;
     ganesha_create_share := ganesha_create_share env0 |}.

(** The world of a node that has joined the grace group. *)
Definition world_joined : World :=
  with_stored {| is_started := true; is_cluster_setup := true |} world0.

(** The world of the leader once it has handled pools-available: the
    latch is set. *)
Definition world_latched : World := (deliver env0 PoolsAvailable world0).2.

(** ** The adapter of the ceph-client relation *)

(** Python orders strings by code point, character by character, a
    proper prefix first. *)
Definition str_le (a b : string) : Prop := String.leb a b = true.

#[global] Instance str_le_dec a b : Decision (str_le a b).
Proof. unfold str_le. apply _. Defined.

(** [sorted(l)] on strings.  Python's sort is stable; the order on
    strings is antisymmetric, so every sort returns the same list. *)
Definition sorted (l : list string) : list string := merge_sort str_le l.

(** What [self.relation.get_relation_data()] holds. *)
Record RelationData := mkRelationData {
  rd_mon_hosts : list string;
  rd_auth : string;
  rd_key : string
}.

Module CephClientAdapter.

Definition mon_hosts (d : RelationData) : string :=
  String.concat " " (sorted (rd_mon_hosts d)).

Definition auth_supported (d : RelationData) : string := rd_auth d.

Definition key (d : RelationData) : string := rd_key d.

End CephClientAdapter.

(** ** Observations on the grace group, the restarts and the targets *)

(** The verb of a grace command that exited with 0. *)
Definition grace_verb_of (x : effect) : option string :=
  match x with
  | Exec [prog; _; _; _; _; _; _; verb; _] rc =>
      if decide (prog = "ganesha-rados-grace" /\ rc = 0%Z) then Some verb else None
  | _ => None
  end.

(** The verb of the last grace command that succeeded, if any did. *)
Definition last_grace (w : World) : option string :=
  last (omap grace_verb_of (trace w)).

(** The flag and the last successful grace command, side by side. *)
Definition grace_view (w : World) : bool * option string :=
  (is_cluster_setup (stored w), last_grace w).

(** The flag tells what the trace tells: the node is flagged as a
    member exactly when its last successful grace command was an add. *)
Definition grace_consistent (w : World) : Prop :=
  is_cluster_setup (stored w) = true <-> last_grace w = Some "add".

(** The node has rendered its configuration at least once. *)
Definition started (w : World) : Prop := is_started (stored w) = true.

(** The latch and the nonce as the node sees them. *)
Definition latch (w : World) : bool := pool_initialised (peers w).
Definition nonce (w : World) : nat := reload_nonce (peers w).

Definition is_restart (x : effect) : bool :=
  match x with
  | Exec [prog; verb; _] _ => bool_decide (prog = "systemctl" /\ verb = "restart")
  | _ => false
  end.

(** The service restarts of the trace so far. *)
Definition restarts_so_far (w : World) : list effect :=
  filter (fun x => is_restart x = true) (trace w).

(** The file of a target already holds what the target renders to. *)
Definition target_unchanged (e : Env) (w : World) (target : string) : Prop :=
  files w !! target = template e target.

(** No tracked file would change if it were rendered now. *)
Definition nothing_to_render (e : Env) (w : World) : Prop :=
  Forall (target_unchanged e w) (map fst RESTART_MAP).

#[global] Instance nothing_to_render_dec e w : Decision (nothing_to_render e w).
Proof. unfold nothing_to_render, target_unchanged. apply _. Defined.

(** The files and the world once the three targets have been rendered
    to the texts [t1], [t2] and [t3]. *)
Definition rendered_files (t1 t2 t3 : string) (w : World) : gmap string string :=
  <[GANESHA_KEYRING := t3]> (<[CEPH_CONF := t2]> (<[GANESHA_CONF := t1]> (files w))).

Definition rendered (t1 t2 t3 : string) (w : World) : World :=
  with_files (rendered_files t1 t2 t3 w)
    (with_trace
       (((trace w ++ [Render (basename GANESHA_CONF) GANESHA_CONF])
           ++ [Render (basename CEPH_CONF) CEPH_CONF])
          ++ [Render (basename GANESHA_KEYRING) GANESHA_KEYRING]) w).

(** The restart command of the NFS server, as the library issues it. *)
Definition restart_nfs_ganesha : list string := ["systemctl"; "restart"; "nfs-ganesha"].

(** * Proofs *)

(** ** Stepping through a computation *)

Lemma bind_ok {A B} (m : M A) (k : A -> M B) w a w1 :
  m w = (Ok a, w1) -> bind m k w = k a w1.
Proof. unfold bind. intros ->. reflexivity. Qed.

Lemma bind_raise {A B} (m : M A) (k : A -> M B) w x w1 :
  m w = (Raise x, w1) -> bind m k w = (Raise x, w1).
Proof. unfold bind. intros ->. reflexivity. Qed.

(** ** Equations of the external calls *)

Section Calls.
Context (e : Env).

Lemma check_call_ok argv w :
  proc e argv = 0%Z ->
  check_call e argv w
  = (Ok tt, rados_put argv (with_trace (trace w ++ [Exec argv 0%Z]) w)).
Proof.
  intros H. unfold check_call, call, run, bind, emit, modify, ret.
  rewrite H. reflexivity.
Qed.

Lemma check_call_failed argv w :
  proc e argv <> 0%Z ->
  check_call e argv w
  = (Raise (CalledProcessError (proc e argv) argv), ran e argv w).
Proof.
  intros H. unfold check_call, call, run, bind, emit, modify, ret, raise, ran.
  repeat (case_decide; try contradiction; cbn beta iota).
  reflexivity.
Qed.

Lemma call_eq argv w :
  call e argv w
  = (Ok (proc e argv),
     if decide (proc e argv = 0%Z) then rados_put argv (ran e argv w)
     else ran e argv w).
Proof.
  unfold call, run, bind, emit, modify, ret, ran.
  destruct (decide (proc e argv = 0%Z)); reflexivity.
Qed.

Lemma rados_put_rados_put_cmd obj src w :
  rados_put (rados_put_cmd e obj src) w
  = with_objects (objects w ++ [(obj, read_file src w)]) w.
Proof. reflexivity. Qed.

Lemma rados_put_grace verb w : rados_put (grace e verb) w = w.
Proof. reflexivity. Qed.

Lemma read_file_dev_null w : read_file "/dev/null" w = "".
Proof. reflexivity. Qed.

Lemma read_file_regular path w :
  path <> "/dev/null" -> read_file path w = default "" (files w !! path).
Proof. intros H. unfold read_file. rewrite decide_False; auto. Qed.

Lemma tmp_name_not_dev_null : tmp_name e <> "/dev/null".
Proof. unfold tmp_name. simpl. discriminate. Qed.

End Calls.

(** ** The three runs of the bootstrap *)

Section Bootstrap.
Context (e : Env) (w : World).

Lemma bootstrap_index_failed :
  proc e (index_put e) <> 0%Z ->
  let w' := (bootstrap e w).2 in
  (bootstrap e w).1 = Ok tt
  /\ trace w' = (trace w ++ [Exec (index_put e) (proc e (index_put e))])%list
  /\ objects w' = objects w
  /\ peers w' = peers w
  /\ stored w' = stored w
  /\ deferred (event w') = true
  /\ log w' = (log w ++ [(ERROR, "Failed to setup ganesha index object")])%list.
Proof.
  intros H. unfold bootstrap, try_except_CalledProcessError, bind.
  fold (index_put e). rewrite (check_call_failed e _ w H).
  cbn. repeat split; reflexivity.
Qed.

Lemma bootstrap_counter_failed :
  proc e (index_put e) = 0%Z ->
  proc e (counter_put e) <> 0%Z ->
  let w' := (bootstrap e w).2 in
  (bootstrap e w).1 = Ok tt
  /\ trace w' = (trace w ++ [Exec (index_put e) 0%Z;
                             Exec (counter_put e) (proc e (counter_put e))])%list
  /\ objects w' = (objects w ++ [("ganesha-export-index", "")])%list
  /\ peers w' = peers w
  /\ stored w' = stored w
  /\ deferred (event w') = true
  /\ log w' = (log w ++ [(ERROR, "Failed to setup ganesha index object")])%list.
Proof.
  intros Hi Hc. destruct (bootstrap e w) as [r w'] eqn:E.
  unfold bootstrap, try_except_CalledProcessError in E.
  fold (index_put e) in E.
  rewrite (bind_ok _ _ _ _ _ (check_call_ok e _ w Hi)) in E.
  cbn [bind NamedTemporaryFile file_write file_seek0 modify ret fst snd] in E.
  fold (counter_put e) in E.
  rewrite (bind_raise _ _ _ _ _ (check_call_failed e _ _ Hc)) in E.
  cbn -[tmp_name index_put counter_put] in E.
  injection E as <- <-. cbn -[tmp_name index_put counter_put].
  rewrite <- app_assoc.
  repeat split; reflexivity.
Qed.

Lemma bootstrap_done :
  proc e (index_put e) = 0%Z ->
  proc e (counter_put e) = 0%Z ->
  let w' := (bootstrap e w).2 in
  (bootstrap e w).1 = Ok tt
  /\ trace w' = (trace w ++ [Exec (index_put e) 0%Z; Exec (counter_put e) 0%Z;
                             InitialisedPool])%list
  /\ objects w' = (objects w ++ [("ganesha-export-index", "");
                                 ("ganesha-export-counter", "1000")])%list
  /\ pool_initialised (peers w') = true
  /\ reload_nonce (peers w') = reload_nonce (peers w)
  /\ stored w' = stored w
  /\ event w' = event w
  /\ log w' = log w.
Proof.
  intros Hi Hc. destruct (bootstrap e w) as [r w'] eqn:E.
  unfold bootstrap, try_except_CalledProcessError in E.
  fold (index_put e) in E.
  rewrite (bind_ok _ _ _ _ _ (check_call_ok e _ w Hi)) in E.
  cbn [bind NamedTemporaryFile file_write file_seek0 modify ret fst snd] in E.
  fold (counter_put e) in E.
  rewrite (bind_ok _ _ _ _ _ (check_call_ok e _ _ Hc)) in E.
  cbn -[tmp_name index_put counter_put] in E.
  injection E as <- <-. cbn -[tmp_name index_put counter_put].
  rewrite read_file_dev_null, read_file_regular by apply tmp_name_not_dev_null.
  cbn -[tmp_name index_put counter_put]. rewrite !lookup_insert_eq.
  cbn -[tmp_name index_put counter_put].
  rewrite <- !app_assoc.
  repeat split; reflexivity.
Qed.

End Bootstrap.

(** ** What a computation leaves alone *)

Section Keeps.
Context {X : Type} (f : World -> X).

Lemma keeps_ret {A} (a : A) : keeps f (ret a).
Proof. intros w. reflexivity. Qed.

Lemma keeps_raise {A} x : keeps f (@raise A x).
Proof. intros w. reflexivity. Qed.

Lemma keeps_get {A} (g : World -> A) : keeps f (get g).
Proof. intros w. reflexivity. Qed.

Lemma keeps_modify (g : World -> World) :
  (forall w, f (g w) = f w) -> keeps f (modify g).
Proof. intros H w. apply H. Qed.

Lemma keeps_bind {A B} (m : M A) (k : A -> M B) :
  keeps f m -> (forall a, keeps f (k a)) -> keeps f (bind m k).
Proof.
  intros Hm Hk w. unfold bind. specialize (Hm w).
  destruct (m w) as [[a|x] w1]; cbn in *.
  - rewrite (Hk a w1). exact Hm.
  - exact Hm.
Qed.

Lemma keeps_try {A} (body handler : M A) :
  keeps f body -> keeps f handler ->
  keeps f (try_except_CalledProcessError body handler).
Proof.
  intros Hb Hh w. unfold try_except_CalledProcessError. specialize (Hb w).
  destruct (body w) as [[a|x] w1]; cbn in *; [exact Hb|].
  destruct (is_CalledProcessError x); cbn; [|exact Hb].
  rewrite (Hh w1). exact Hb.
Qed.

Lemma keeps_for {A} (l : list A) (body : A -> M unit) :
  (forall x, keeps f (body x)) -> keeps f (for_ l body).
Proof.
  intros H. induction l as [|x l IH]; cbn [for_].
  - apply keeps_ret.
  - apply keeps_bind; auto.
Qed.

Lemma keeps_if {A} (b : bool) (m1 m2 : M A) :
  keeps f m1 -> keeps f m2 -> keeps f (if b then m1 else m2).
Proof. destruct b; auto. Qed.

End Keeps.

Lemma returns_ret {A} (a : A) : returns (ret a).
Proof. intros w. eexists. reflexivity. Qed.

Lemma returns_get {A} (g : World -> A) : returns (get g).
Proof. intros w. eexists. reflexivity. Qed.

Lemma returns_modify g : returns (modify g).
Proof. intros w. eexists. reflexivity. Qed.

Lemma returns_bind {A B} (m : M A) (k : A -> M B) :
  returns m -> (forall a, returns (k a)) -> returns (bind m k).
Proof.
  intros Hm Hk w. unfold bind. destruct (Hm w) as [a Ha].
  destruct (m w) as [r w1]; cbn in Ha; subst r. apply Hk.
Qed.

Lemma returns_for {A} (l : list A) (body : A -> M unit) :
  (forall x, returns (body x)) -> returns (for_ l body).
Proof.
  intros H. induction l as [|x l IH]; cbn [for_].
  - apply returns_ret.
  - apply returns_bind; auto.
Qed.

Lemma returns_unit (m : M unit) w : returns m -> (m w).1 = Ok tt.
Proof. intros H. destruct (H w) as [[] Ha]. exact Ha. Qed.

(** One step of a proof that a computation keeps an observation. *)
Ltac keeps_step :=
  first
    [ apply keeps_ret
    | apply keeps_raise
    | apply keeps_get
    | apply keeps_bind; [|intros ?]
    | apply keeps_try
    | apply keeps_for; intros ?
    | apply keeps_if
    | apply keeps_modify; intros ?; reflexivity ].

Lemma rados_put_objects_only {X} (f : World -> X) argv w :
  (forall o w', f (with_objects o w') = f w') -> f (rados_put argv w) = f w.
Proof.
  intros H. unfold rados_put.
  repeat (match goal with |- context [match ?l with [] => _ | _ :: _ => _ end] =>
            destruct l end; try reflexivity).
  case_decide; [apply H | reflexivity].
Qed.

Lemma keeps_run {X} (f : World -> X) e argv :
  (forall o w, f (with_objects o w) = f w) ->
  (forall w, f (ran e argv w) = f w) ->
  keeps f (run e argv).
Proof.
  intros Ho Ht. unfold run. cbv zeta.
  apply keeps_bind; [apply keeps_modify; exact Ht|intros _].
  apply keeps_bind; [|intros _; apply keeps_ret].
  case_decide; [|apply keeps_ret].
  apply keeps_modify. intros w. apply rados_put_objects_only, Ho.
Qed.

Lemma keeps_check_call {X} (f : World -> X) e argv :
  (forall o w, f (with_objects o w) = f w) ->
  (forall w, f (ran e argv w) = f w) ->
  keeps f (check_call e argv).
Proof.
  intros Ho Ht. unfold check_call.
  apply keeps_bind; [apply keeps_run; assumption|intros rc].
  case_decide; keeps_step.
Qed.

(** ** Bootstrap writes in a trace *)

Lemma writes_so_far_emit x w :
  is_bootstrap_write x = false ->
  writes_so_far (with_trace (trace w ++ [x]) w) = writes_so_far w.
Proof.
  intros H. unfold writes_so_far, bootstrap_writes. cbn [trace with_trace].
  rewrite filter_app, filter_cons_False, filter_nil by (rewrite H; discriminate).
  apply app_nil_r.
Qed.

Lemma keeps_writes_emit x :
  is_bootstrap_write x = false -> keeps writes_so_far (emit x).
Proof. intros H. apply keeps_modify. intros w. apply writes_so_far_emit, H. Qed.

Lemma keeps_writes_check_call e argv :
  (forall rc, is_bootstrap_write (Exec argv rc) = false) ->
  keeps writes_so_far (check_call e argv).
Proof.
  intros H. apply keeps_check_call; [reflexivity|].
  intros w. apply writes_so_far_emit, H.
Qed.

Lemma keeps_writes_call e argv :
  (forall rc, is_bootstrap_write (Exec argv rc) = false) ->
  keeps writes_so_far (call e argv).
Proof.
  intros H. apply keeps_run; [reflexivity|].
  intros w. apply writes_so_far_emit, H.
Qed.

Ltac writes_step :=
  first
    [ apply keeps_writes_emit; reflexivity
    | apply keeps_writes_check_call; intros ?; reflexivity
    | apply keeps_writes_call; intros ?; reflexivity
    | keeps_step ].

Section NoBootstrapWrite.
Context (e : Env).

Lemma request_ceph_pool_no_write : keeps writes_so_far (request_ceph_pool e).
Proof.
  unfold request_ceph_pool.
  destruct (broker_available e); cbn [negb]; [|unfold logging; keeps_step].
  destruct (bluestore_compression e); unfold logging; repeat writes_step.
Qed.

Lemma render_config_no_write : keeps writes_so_far (render_config e).
Proof.
  unfold render_config.
  destruct (pools_available e); cbn [negb];
    [|unfold logging, defer; repeat keeps_step].
  unfold mkdir, restart_on_change, _render_configs, render, service_restart,
    set_is_started, update_status, logging.
  cbv zeta. destruct (mkdir_ok e); repeat writes_step.
  all: destruct (template e _); repeat writes_step.
Qed.

Lemma on_departing_no_write : keeps writes_so_far (on_departing e).
Proof. unfold on_departing, set_is_cluster_setup. repeat writes_step. Qed.

Lemma on_pool_initialised_no_write : keeps writes_so_far (on_pool_initialised e).
Proof. unfold on_pool_initialised, logging, defer. repeat writes_step. Qed.

Lemma on_reload_nonce_no_write : keeps writes_so_far (on_reload_nonce e).
Proof. unfold on_reload_nonce, logging. repeat writes_step. Qed.

Lemma create_share_action_no_write : keeps writes_so_far (create_share_action e).
Proof.
  unfold create_share_action, fail, create_share, trigger_reload, set_results.
  destruct (is_leader e); cbn [negb]; repeat writes_step.
  destruct (ganesha_create_share e _); repeat writes_step.
Qed.

Lemma grace_join_no_write : keeps writes_so_far (grace_join e).
Proof.
  unfold grace_join, set_is_cluster_setup. repeat writes_step.
Qed.

Lemma setup_ganesha_follower_no_write :
  is_leader e = false -> keeps writes_so_far (setup_ganesha e).
Proof.
  intros H. unfold setup_ganesha. rewrite H. cbn [negb].
  apply keeps_bind; [apply grace_join_no_write|intros _; apply keeps_ret].
Qed.

Lemma observer_no_write (handler rest : M unit) :
  keeps writes_so_far handler -> keeps writes_so_far rest ->
  keeps writes_so_far
    (bind (bind (modify (with_event fresh_event)) (fun _ => handler))
       (fun _ => rest)).
Proof.
  intros Hh Hr. apply keeps_bind; [|intros _; exact Hr].
  apply keeps_bind; [|intros _; exact Hh].
  apply keeps_modify. reflexivity.
Qed.

Lemma deliver_no_write f :
  is_leader e = false \/ f <> PoolsAvailable ->
  keeps writes_so_far (deliver e f).
Proof.
  intros H. unfold deliver.
  destruct f; cbn [observers for_];
    try (apply observer_no_write; [|apply keeps_ret]).
  - apply request_ceph_pool_no_write.
  - destruct H as [H|H]; [|congruence].
    apply observer_no_write; [apply render_config_no_write|].
    apply observer_no_write; [|apply keeps_ret].
    apply setup_ganesha_follower_no_write, H.
  - apply request_ceph_pool_no_write.
  - apply render_config_no_write.
  - apply on_pool_initialised_no_write.
  - apply on_departing_no_write.
  - apply on_reload_nonce_no_write.
  - apply create_share_action_no_write.
Qed.

End NoBootstrapWrite.

(** ** The grace join and the handler around it *)

Section SetupGanesha.
Context (e : Env) (w : World).

Lemma grace_join_skipped :
  is_cluster_setup (stored w) = true -> grace_join e w = (Ok tt, w).
Proof. intros H. unfold grace_join, bind, get. rewrite H. reflexivity. Qed.

Lemma grace_join_done :
  is_cluster_setup (stored w) = false ->
  proc e (grace e "add") = 0%Z ->
  grace_join e w
  = (Ok tt, with_stored (mkStored (is_started (stored w)) true)
              (with_trace (trace w ++ [Exec (grace e "add") 0%Z]) w)).
Proof.
  intros H Hrc. unfold grace_join. unfold bind at 1. unfold get. rewrite H.
  cbn [negb]. rewrite (bind_ok _ _ _ _ _ (check_call_ok e _ w Hrc)).
  reflexivity.
Qed.

Lemma grace_join_failed :
  is_cluster_setup (stored w) = false ->
  proc e (grace e "add") <> 0%Z ->
  grace_join e w
  = (Raise (CalledProcessError (proc e (grace e "add")) (grace e "add")),
     ran e (grace e "add") w).
Proof.
  intros H Hrc. unfold grace_join. unfold bind at 1. unfold get. rewrite H.
  cbn [negb]. rewrite (bind_raise _ _ _ _ _ (check_call_failed e _ w Hrc)).
  reflexivity.
Qed.

Lemma setup_ganesha_leader :
  is_leader e = true -> (grace_join e w).1 = Ok tt ->
  setup_ganesha e w = bootstrap e (grace_join e w).2.
Proof.
  intros Hl Hj. unfold setup_ganesha, bind.
  destruct (grace_join e w) as [r w1]. cbn in Hj. subst r.
  rewrite Hl. reflexivity.
Qed.

Lemma setup_ganesha_follower :
  is_leader e = false -> setup_ganesha e w = grace_join e w.
Proof.
  intros Hl. unfold setup_ganesha, bind.
  destruct (grace_join e w) as [[[]|x] w1]; [|reflexivity].
  rewrite Hl. reflexivity.
Qed.

Lemma setup_ganesha_join_raised x :
  (grace_join e w).1 = Raise x -> setup_ganesha e w = grace_join e w.
Proof.
  intros Hj. unfold setup_ganesha, bind.
  destruct (grace_join e w) as [r w1]. cbn in Hj. subst r. reflexivity.
Qed.

Lemma bootstrap_attempts_index :
  exists rest,
    trace (bootstrap e w).2
    = (trace w ++ Exec (index_put e) (proc e (index_put e)) :: rest)%list.
Proof.
  destruct (decide (proc e (index_put e) = 0%Z)) as [Hi|Hi].
  - destruct (decide (proc e (counter_put e) = 0%Z)) as [Hc|Hc].
    + destruct (bootstrap_done e w Hi Hc) as (_ & Ht & _).
      rewrite Hi. eexists. exact Ht.
    + destruct (bootstrap_counter_failed e w Hi Hc) as (_ & Ht & _).
      rewrite Hi. eexists. exact Ht.
  - destruct (bootstrap_index_failed e w Hi) as (_ & Ht & _).
    exists []. exact Ht.
Qed.

End SetupGanesha.

Lemma run_facts_no_write fs w :
  Forall (fun ef : Env * Fact => is_leader ef.1 = false \/ ef.2 <> PoolsAvailable) fs ->
  writes_so_far (run_facts fs w) = writes_so_far w.
Proof.
  intros H. revert w. induction H as [|[e f] fs Hx _ IH]; intros w; cbn [run_facts].
  - reflexivity.
  - rewrite IH. apply deliver_no_write, Hx.
Qed.

(** One step for an observation that neither the trace nor the pool
    objects touch. *)
Ltac plain_step :=
  first
    [ apply keeps_check_call; intros; reflexivity
    | apply keeps_run; intros; reflexivity
    | keeps_step ].

Lemma grace_join_keeps_peers e : keeps peers (grace_join e).
Proof. unfold grace_join, set_is_cluster_setup. repeat plain_step. Qed.

Lemma grace_join_keeps_event e : keeps event (grace_join e).
Proof. unfold grace_join, set_is_cluster_setup. repeat plain_step. Qed.

Lemma grace_join_keeps_is_started e :
  keeps (fun w => is_started (stored w)) (grace_join e).
Proof. unfold grace_join, set_is_cluster_setup. repeat plain_step. Qed.

Lemma bootstrap_keeps_stored e : keeps stored (bootstrap e).
Proof.
  unfold bootstrap, NamedTemporaryFile, file_write, file_seek0,
    initialised_pool, emit, logging, defer.
  repeat plain_step.
Qed.

Lemma grace_join_trace e w :
  trace (grace_join e w).2 = trace w
  \/ trace (grace_join e w).2
     = (trace w ++ [Exec (grace e "add") (proc e (grace e "add"))])%list.
Proof.
  destruct (is_cluster_setup (stored w)) eqn:Hs.
  - left. rewrite (grace_join_skipped e w Hs). reflexivity.
  - right. destruct (decide (proc e (grace e "add") = 0%Z)) as [H|H].
    + rewrite (grace_join_done e w Hs H), H. reflexivity.
    + rewrite (grace_join_failed e w Hs H). reflexivity.
Qed.

Lemma since_app w w' l : trace w' = (trace w ++ l)%list -> since w w' = l.
Proof. intros H. unfold since. rewrite H. apply drop_app_length. Qed.


(** ** The renderer *)

Lemma bind_Ok_inv {A B} (m : M A) (k : A -> M B) w b w' :
  bind m k w = (Ok b, w') ->
  exists a w1, m w = (Ok a, w1) /\ k a w1 = (Ok b, w').
Proof.
  unfold bind. destruct (m w) as [[a|x] w1]; intros H; [|discriminate].
  exists a, w1. auto.
Qed.

Lemma returns_call e argv : returns (call e argv).
Proof. intros w. rewrite call_eq. eexists. reflexivity. Qed.

Lemma returns_restart_on_change e restart_map (f : M unit) :
  returns f -> returns (restart_on_change e restart_map [] f).
Proof.
  intros Hf. unfold restart_on_change.
  apply returns_bind; [apply returns_get|intros checksums].
  apply returns_bind; [exact Hf|intros _].
  apply returns_bind; [apply returns_get|intros restarts].
  apply returns_for. intros service_name. cbn [dict_get]. unfold service_restart.
  apply returns_bind; [apply returns_call|intros _; apply returns_ret].
Qed.

Lemma renderable_inv e :
  renderable e = true ->
  mkdir_ok e = true
  /\ is_Some (template e GANESHA_CONF)
  /\ is_Some (template e CEPH_CONF)
  /\ is_Some (template e GANESHA_KEYRING).
Proof.
  unfold renderable. cbn [map fst RESTART_MAP forallb].
  rewrite !andb_true_iff, !bool_decide_eq_true. tauto.
Qed.

Lemma returns__render_configs e :
  is_Some (template e GANESHA_CONF) ->
  is_Some (template e CEPH_CONF) ->
  is_Some (template e GANESHA_KEYRING) ->
  returns (_render_configs e).
Proof.
  intros [t1 H1] [t2 H2] [t3 H3]. unfold _render_configs.
  cbn [map fst RESTART_MAP for_]. unfold render. rewrite H1, H2, H3.
  unfold emit.
  repeat first [apply returns_bind; [|intros ?] | apply returns_modify | apply returns_ret].
Qed.

Lemma render_config_waiting e w :
  pools_available e = false ->
  render_config e w
  = (Ok tt, with_event (mkEvent true (failure (event w)) (results (event w)))
              (with_log (log w ++ [(INFO, "Defering setup")]) w)).
Proof. intros H. unfold render_config. rewrite H. reflexivity. Qed.

Lemma render_config_returned e w w' :
  pools_available e = true ->
  render_config e w = (Ok tt, w') ->
  is_started (stored w') = true.
Proof.
  intros Hp H. unfold render_config in H. rewrite Hp in H. cbn [negb] in H.
  cbv zeta in H.
  apply bind_Ok_inv in H as (_ & w1 & _ & H).
  apply bind_Ok_inv in H as (_ & w2 & _ & H).
  apply bind_Ok_inv in H as (_ & w3 & _ & H).
  apply bind_Ok_inv in H as (_ & w4 & _ & H).
  cbn in H. injection H as <-. reflexivity.
Qed.

Lemma render_config_returns e w :
  pools_available e = true -> renderable e = true ->
  (render_config e w).1 = Ok tt.
Proof.
  intros Hp Hr. apply renderable_inv in Hr as (Hm & H1 & H2 & H3).
  unfold render_config. rewrite Hp. cbn [negb]. cbv zeta.
  apply returns_unit. unfold mkdir. rewrite Hm.
  unfold emit, logging, set_is_started, update_status, emit.
  repeat first
    [ apply returns_restart_on_change, returns__render_configs; assumption
    | apply returns_bind; [|intros ?]
    | apply returns_modify ].
Qed.

Lemma render_config_keeps_event e w :
  pools_available e = true -> event (render_config e w).2 = event w.
Proof.
  intros Hp. revert w. change (keeps event (render_config e)).
  unfold render_config. rewrite Hp. cbn [negb]. cbv zeta.
  unfold mkdir, restart_on_change, _render_configs, render, service_restart,
    set_is_started, update_status, logging, emit.
  destruct (mkdir_ok e); repeat plain_step.
  all: destruct (template e _); repeat plain_step.
Qed.

(** * Properties of the handlers *)

(** C1, as stated, fails: on the leader, whose latch is already true
    after a first pools-available fact, a second pools-available fact
    puts the index and the counter object again. *)
Lemma latch_true_bootstrap_repeated :
  pool_initialised (peers world_latched) = true
  /\ writes_so_far (deliver env0 PoolsAvailable world_latched).2
     = (writes_so_far world_latched
        ++ [Exec (index_put env0) 0%Z; Exec (counter_put env0) 0%Z])%list.
Proof. split; vm_compute; reflexivity. Qed.

(** C1, amended: the bootstrap is guarded by leadership and not by the
    latch.  Whatever the latch holds, no sequence of facts of which none
    is a pools-available fact on the leader attempts a bootstrap write;
    and from the world those facts leave, a leader whose grace join is
    done or succeeds attempts the index put when it handles
    pools-available. *)
Theorem bootstrap_guarded_by_leadership_not_latch
    (fs : list (Env * Fact)) (w : World) (e : Env) :
  Forall (fun ef : Env * Fact => is_leader ef.1 = false \/ ef.2 <> PoolsAvailable) fs ->
  is_leader e = true ->
  (grace_join e (run_facts fs w)).1 = Ok tt ->
  let w1 := run_facts fs w in
  writes_so_far w1 = writes_so_far w
  /\ exists rest,
       trace (setup_ganesha e w1).2
       = (trace (grace_join e w1).2
          ++ Exec (index_put e) (proc e (index_put e)) :: rest)%list.
Proof.
  intros Hfs Hl Hj w1. split.
  - apply run_facts_no_write, Hfs.
  - rewrite (setup_ganesha_leader e w1 Hl Hj). apply bootstrap_attempts_index.
Qed.

Lemma bootstrap_guarded_by_leadership_not_latch_witness :
  pool_initialised (peers world_latched) = true
  /\ let fs := [(env_follower, PoolsAvailable); (env0, ReloadNonce)] in
     let w1 := run_facts fs world_latched in
     writes_so_far w1 = writes_so_far world_latched
     /\ exists rest,
          trace (setup_ganesha env0 w1).2
          = (trace (grace_join env0 w1).2
             ++ Exec (index_put env0) (proc env0 (index_put env0)) :: rest)%list.
Proof.
  split; [vm_compute; reflexivity|].
  apply (bootstrap_guarded_by_leadership_not_latch
           [(env_follower, PoolsAvailable); (env0, ReloadNonce)] world_latched env0).
  - constructor; [left; reflexivity|].
    constructor; [right; discriminate|]. constructor.
  - reflexivity.
  - vm_compute. reflexivity.
Defined.

(** C2, as stated, fails: when the removal command exits with a
    non-zero status, [on_departing] raises and the flag of a joined node
    is still true. *)
Lemma departing_failure_keeps_flag :
  (on_departing env_failing world_joined).1
  = Raise (CalledProcessError 1 (grace env_failing "remove"))
  /\ is_cluster_setup (stored (on_departing env_failing world_joined).2) = true
  /\ trace (on_departing env_failing world_joined).2
     = [Exec (grace env_failing "remove") 1%Z].
Proof. repeat split; vm_compute; reflexivity. Qed.

(** C2, amended: for every node-departing fact, whatever
    [is_cluster_setup] holds, the handler runs the grace-removal command,
    once, and never defers the fact or logs.  When the command succeeds
    the handler returns and [is_cluster_setup] is false afterwards; when
    it fails the CalledProcessError reaches the caller and the stored
    flags are as they were. *)
Theorem on_departing_always_attempts_removal (e : Env) (w : World) :
  let remove := grace e "remove" in
  let rc := proc e remove in
  let w' := (on_departing e w).2 in
  trace w' = (trace w ++ [Exec remove rc])%list
  /\ event w' = event w
  /\ log w' = log w
  /\ if decide (rc = 0%Z)
     then (on_departing e w).1 = Ok tt
          /\ stored w' = mkStored (is_started (stored w)) false
     else (on_departing e w).1 = Raise (CalledProcessError rc remove)
          /\ stored w' = stored w.
Proof.
  intros remove rc w'. subst w'. unfold on_departing.
  destruct (decide (rc = 0%Z)) as [H|H].
  - rewrite (bind_ok _ _ _ _ _ (check_call_ok e _ w H)).
    subst rc. rewrite H. repeat split; reflexivity.
  - rewrite (bind_raise _ _ _ _ _ (check_call_failed e _ w H)).
    repeat split; reflexivity.
Qed.

(** C3, as stated, fails: when the join command exits with a non-zero
    status, [setup_ganesha] raises; the fact is not deferred. *)
Lemma join_failure_not_deferred :
  (setup_ganesha env_failing world0).1
  = Raise (CalledProcessError 1 (grace env_failing "add"))
  /\ deferred (event (setup_ganesha env_failing world0).2) = false
  /\ is_cluster_setup (stored (setup_ganesha env_failing world0).2) = false.
Proof. repeat split; vm_compute; reflexivity. Qed.

(** C3, amended: the grace join is guarded by [is_cluster_setup].  If the
    flag is already true the join makes no external call and changes
    nothing.  If it is false the join command runs once: when it
    succeeds the flag is true after the join and after the handler; when
    it fails the CalledProcessError reaches the caller of
    [setup_ganesha], nothing else is run, the stored flags are as they
    were (so the flag is false) and the fact is not deferred. *)
Theorem grace_join_guarded_failure_propagates (e : Env) (w : World) :
  let add := grace e "add" in
  let rc := proc e add in
  let w1 := (grace_join e w).2 in
  let w' := (setup_ganesha e w).2 in
  if is_cluster_setup (stored w) then grace_join e w = (Ok tt, w)
  else if decide (rc = 0%Z)
       then (grace_join e w).1 = Ok tt
            /\ trace w1 = (trace w ++ [Exec add 0%Z])%list
            /\ is_cluster_setup (stored w1) = true
            /\ is_cluster_setup (stored w') = true
       else (setup_ganesha e w).1 = Raise (CalledProcessError rc add)
            /\ trace w' = (trace w ++ [Exec add rc])%list
            /\ stored w' = stored w
            /\ event w' = event w.
Proof.
  intros add rc w1 w'. subst w1 w'.
  destruct (is_cluster_setup (stored w)) eqn:Hs.
  - apply grace_join_skipped, Hs.
  - destruct (decide (rc = 0%Z)) as [H|H].
    + pose proof (grace_join_done e w Hs H) as Hj.
      assert (Hr : (grace_join e w).1 = Ok tt) by (rewrite Hj; reflexivity).
      repeat split; try (rewrite Hj; reflexivity).
      destruct (is_leader e) eqn:Hl.
      * rewrite (setup_ganesha_leader e w Hl Hr), bootstrap_keeps_stored, Hj.
        reflexivity.
      * rewrite (setup_ganesha_follower e w Hl), Hj. reflexivity.
    + pose proof (grace_join_failed e w Hs H) as Hj.
      rewrite (setup_ganesha_join_raised e w _ (f_equal fst Hj)), Hj.
      repeat split; reflexivity.
Qed.

(** C4: when the leader performs the bootstrap (the grace join is done
    or has just succeeded), the index put comes first and its source is
    /dev/null, so the index object is empty; the counter put is issued
    only once the index put has exited with 0 and stores the text 1000;
    the latch is set, last, only when both puts have exited with 0. *)
Theorem bootstrap_index_then_counter_then_latch (e : Env) (w : World) :
  is_leader e = true ->
  (grace_join e w).1 = Ok tt ->
  let w1 := (grace_join e w).2 in
  let w' := (setup_ganesha e w).2 in
  let rc_index := proc e (index_put e) in
  let rc_counter := proc e (counter_put e) in
  (setup_ganesha e w).1 = Ok tt
  /\ if decide (rc_index = 0%Z)
     then if decide (rc_counter = 0%Z)
          then trace w' = (trace w1 ++ [Exec (index_put e) 0%Z;
                                        Exec (counter_put e) 0%Z;
                                        InitialisedPool])%list
               /\ objects w' = (objects w1 ++ [("ganesha-export-index", "");
                                               ("ganesha-export-counter", "1000")])%list
               /\ pool_initialised (peers w') = true
          else trace w' = (trace w1 ++ [Exec (index_put e) 0%Z;
                                        Exec (counter_put e) rc_counter])%list
               /\ objects w' = (objects w1 ++ [("ganesha-export-index", "")])%list
               /\ peers w' = peers w1
     else trace w' = (trace w1 ++ [Exec (index_put e) rc_index])%list
          /\ objects w' = objects w1
          /\ peers w' = peers w1.
Proof.
  intros Hl Hj w1 w' rc_index rc_counter. subst w'.
  rewrite (setup_ganesha_leader e w Hl Hj). fold w1.
  destruct (decide (rc_index = 0%Z)) as [Hi|Hi].
  - destruct (decide (rc_counter = 0%Z)) as [Hc|Hc].
    + destruct (bootstrap_done e w1 Hi Hc) as (Hr & Ht & Ho & Hp & _).
      auto.
    + destruct (bootstrap_counter_failed e w1 Hi Hc) as (Hr & Ht & Ho & Hp & _).
      auto.
  - destruct (bootstrap_index_failed e w1 Hi) as (Hr & Ht & Ho & Hp & _).
    auto.
Qed.

Lemma bootstrap_index_then_counter_then_latch_witness :
  is_leader env0 = true
  /\ (grace_join env0 world0).1 = Ok tt
  /\ (setup_ganesha env0 world0).1 = Ok tt
  /\ trace (setup_ganesha env0 world0).2
     = (trace (grace_join env0 world0).2
        ++ [Exec (index_put env0) 0%Z; Exec (counter_put env0) 0%Z;
            InitialisedPool])%list
  /\ objects (setup_ganesha env0 world0).2
     = (objects (grace_join env0 world0).2
        ++ [("ganesha-export-index", ""); ("ganesha-export-counter", "1000")])%list
  /\ pool_initialised (peers (setup_ganesha env0 world0).2) = true.
Proof.
  split; [reflexivity|]. split; [vm_compute; reflexivity|].
  exact (bootstrap_index_then_counter_then_latch env0 world0 eq_refl eq_refl).
Defined.

(** C5: if a bootstrap write fails (the index put, or the counter put
    after it), [setup_ganesha] returns having deferred the fact; the
    latch is not set: no effect of the run is the setting of the latch
    and the peer data is as it was; and the bootstrap leaves the stored
    flags as the grace join left them, [is_started] as it was before the
    handler. *)
Theorem failed_bootstrap_write_defers (e : Env) (w : World) :
  is_leader e = true ->
  (grace_join e w).1 = Ok tt ->
  proc e (index_put e) <> 0%Z \/ proc e (counter_put e) <> 0%Z ->
  let w1 := (grace_join e w).2 in
  let w' := (setup_ganesha e w).2 in
  (setup_ganesha e w).1 = Ok tt
  /\ deferred (event w') = true
  /\ Forall (fun x => x <> InitialisedPool) (since w w')
  /\ peers w' = peers w
  /\ stored w' = stored w1
  /\ is_started (stored w') = is_started (stored w).
Proof.
  intros Hl Hj Hrc w1 w'. subst w'.
  rewrite (setup_ganesha_leader e w Hl Hj). fold w1.
  assert (Hcases :
    (bootstrap e w1).1 = Ok tt
    /\ (exists l, trace (bootstrap e w1).2 = (trace w1 ++ l)%list
                  /\ Forall (fun x => x <> InitialisedPool) l)
    /\ peers (bootstrap e w1).2 = peers w1
    /\ stored (bootstrap e w1).2 = stored w1
    /\ deferred (event (bootstrap e w1).2) = true).
  { destruct (decide (proc e (index_put e) = 0%Z)) as [Hi|Hi].
    - destruct Hrc as [Hrc|Hc]; [contradiction|].
      destruct (bootstrap_counter_failed e w1 Hi Hc)
        as (Hr & Ht & _ & Hp & Hs & Hd & _).
      repeat split; auto. eexists. split; [exact Ht|].
      repeat constructor; discriminate.
    - destruct (bootstrap_index_failed e w1 Hi)
        as (Hr & Ht & _ & Hp & Hs & Hd & _).
      repeat split; auto. eexists. split; [exact Ht|].
      repeat constructor; discriminate. }
  destruct Hcases as (Hr & (l & Ht & Hl') & Hp & Hs & Hd).
  repeat split; auto.
  - destruct (grace_join_trace e w) as [Hw|Hw]; fold w1 in Hw.
    + rewrite (since_app w _ l) by (rewrite Ht, Hw; reflexivity). exact Hl'.
    + rewrite (since_app w _ (Exec (grace e "add") (proc e (grace e "add")) :: l))
        by (rewrite Ht, Hw, <- app_assoc; reflexivity).
      constructor; [discriminate|exact Hl'].
  - rewrite Hp. apply grace_join_keeps_peers.
  - rewrite Hs. apply (grace_join_keeps_is_started e w).
Qed.

Lemma failed_bootstrap_write_defers_witness :
  is_leader env_failing = true
  /\ (grace_join env_failing world_joined).1 = Ok tt
  /\ proc env_failing (index_put env_failing) <> 0%Z
  /\ (setup_ganesha env_failing world_joined).1 = Ok tt
  /\ deferred (event (setup_ganesha env_failing world_joined).2) = true
  /\ Forall (fun x => x <> InitialisedPool)
       (since world_joined (setup_ganesha env_failing world_joined).2)
  /\ peers (setup_ganesha env_failing world_joined).2 = peers world_joined
  /\ stored (setup_ganesha env_failing world_joined).2
     = stored (grace_join env_failing world_joined).2
  /\ is_started (stored (setup_ganesha env_failing world_joined).2)
     = is_started (stored world_joined).
Proof.
  split; [reflexivity|]. split; [reflexivity|]. split; [discriminate|].
  apply (failed_bootstrap_write_defers env_failing world_joined);
    [reflexivity|reflexivity|left; discriminate].
Defined.

(** C6: while the pools are not available [render_config] returns
    without raising, having deferred the fact and logged at INFO level
    only; the stored flags (so [is_started]) and the trace are as they
    were.  When the pools are available a render pass that returns has
    set [is_started] to true without deferring, and the pass does return
    whenever the directory can be made and every target renders. *)
Theorem render_config_gate (e : Env) (w : World) :
  let r := render_config e w in
  if pools_available e
  then (r.1 = Ok tt -> is_started (stored r.2) = true)
       /\ (renderable e = true -> r.1 = Ok tt)
       /\ event r.2 = event w
  else r.1 = Ok tt
       /\ deferred (event r.2) = true
       /\ stored r.2 = stored w
       /\ trace r.2 = trace w
       /\ log r.2 = (log w ++ [(INFO, "Defering setup")])%list.
Proof.
  intros r. subst r. destruct (pools_available e) eqn:Hp.
  - split; [|split].
    + intros H. apply (render_config_returned e w _ Hp).
      destruct (render_config e w) as [r w']. cbn in H. subst r. reflexivity.
    + apply render_config_returns, Hp.
    + apply render_config_keeps_event, Hp.
  - rewrite (render_config_waiting e w Hp). repeat split; reflexivity.
Qed.

Lemma render_config_gate_witness :
  (pools_available env0 = true
   /\ (render_config env0 world0).1 = Ok tt
   /\ is_started (stored world0) = false
   /\ is_started (stored (render_config env0 world0).2) = true)
  /\ (pools_available env_waiting = false
      /\ deferred (event (render_config env_waiting world0).2) = true
      /\ is_started (stored (render_config env_waiting world0).2) = false).
Proof.
  split.
  - pose proof (render_config_gate env0 world0) as H. cbv zeta in H.
    change (pools_available env0) with true in H. cbv iota in H.
    destruct H as (H1 & H2 & _).
    pose proof (H2 eq_refl) as Hr.
    exact (conj eq_refl (conj Hr (conj eq_refl (H1 Hr)))).
  - pose proof (render_config_gate env_waiting world0) as H. cbv zeta in H.
    change (pools_available env_waiting) with false in H. cbv iota in H.
    destruct H as (_ & Hd & Hs & _).
    exact (conj eq_refl (conj Hd (f_equal is_started Hs))).
Defined.

(** C7, as stated, fails: on a reload-nonce change the handler renders
    nothing: its one effect is the HUP signal, and a target that
    [render_config] would write is still missing. *)
Lemma reload_nonce_renders_nothing :
  trace (on_reload_nonce env0 world0).2
  = [Exec ["killall"; "-HUP"; "ganesha.nfsd"] 0%Z]
  /\ files (on_reload_nonce env0 world0).2 !! GANESHA_CONF = None
  /\ files (render_config env0 world0).2 !! GANESHA_CONF
     = Some "# /etc/ganesha/ganesha.conf".
Proof. repeat split; vm_compute; reflexivity. Qed.

(** C7, amended: on a reload-nonce change the node logs the reload and
    sends HUP to its NFS server process with killall, a reload signal
    and not a service restart; that is the handler's only effect: no
    file is rendered, no flag changes, the fact is not deferred, and the
    handler returns whatever the exit status of killall. *)
Theorem on_reload_nonce_signals_reload (e : Env) (w : World) :
  let hup := ["killall"; "-HUP"; "ganesha.nfsd"] in
  on_reload_nonce e w
  = (Ok tt,
     with_trace (trace w ++ [Exec hup (proc e hup)])
       (with_log (log w ++ [(INFO, "Reloading Ganesha after nonce triggered reload")])
          w)).
Proof.
  intros hup. unfold on_reload_nonce, logging. unfold bind at 1. unfold modify at 1.
  unfold bind. rewrite call_eq. cbn [fst snd].
  case_decide; reflexivity.
Qed.

(** C8: on a unit that is not the leader the action is failed with its
    message and nothing else happens: no effect is added to the trace and
    the world is as it was but for the failure recorded on the event.  On
    the leader the share is created with the size parameter; when the
    collaborator returns the export path, the reload nonce is bumped and
    the results hold the message, the path and the advertised address;
    when it raises, nothing is bumped and no result is set. *)
Theorem create_share_action_leader_only (e : Env) (w : World) :
  let r := create_share_action e w in
  let size := params e !! "size" in
  if is_leader e
  then match ganesha_create_share e size with
       | Some export_path =>
           r.1 = Ok tt
           /\ trace r.2 = (trace w ++ [CreateShare (client_name e) (pool_name e) size;
                                       TriggerReload])%list
           /\ reload_nonce (peers r.2) = S (reload_nonce (peers w))
           /\ failure (event r.2) = failure (event w)
           /\ exists d, results (event r.2) = Some d
                        /\ d !! "message" = Some (Some "Share created")
                        /\ d !! "path" = Some (Some export_path)
                        /\ d !! "ip" = Some (access_address e)
       | None =>
           r.1 = Raise ShareError
           /\ trace r.2 = (trace w ++ [CreateShare (client_name e) (pool_name e) size])%list
           /\ peers r.2 = peers w
           /\ event r.2 = event w
       end
  else r = (Ok tt,
            with_event
              (mkEvent (deferred (event w))
                 (Some "Share creation needs to be run from the application leader")
                 (results (event w)))
              w).
Proof.
  intros r size. subst r. unfold create_share_action.
  destruct (is_leader e); cbn [negb]; [|reflexivity].
  fold size. unfold create_share. unfold bind at 1. unfold bind at 1.
  unfold emit at 1. unfold modify at 1.
  destruct (ganesha_create_share e size) as [export_path|].
  - cbn -[insert empty lookup client_name pool_name access_address].
    rewrite <- app_assoc. repeat split; try reflexivity.
    eexists. split; [reflexivity|]. repeat split.
  - cbn -[client_name pool_name]. repeat split; reflexivity.
Qed.

(** C9, as stated, fails: when the restart command of
    [on_pool_initialised] exits with a non-zero status the handler
    returns normally and the fact is deferred for redelivery. *)
Lemma restart_failure_is_deferred :
  (on_pool_initialised env_failing world0).1 = Ok tt
  /\ deferred (event (on_pool_initialised env_failing world0).2) = true
  /\ trace (on_pool_initialised env_failing world0).2
     = [Exec ["systemctl"; "restart"; "nfs-ganesha"] 1%Z].
Proof. repeat split; vm_compute; reflexivity. Qed.

(** C9, amended: [on_pool_initialised] runs the restart command once and
    always returns; when the command fails the failure is not propagated:
    it is logged as an error and the fact is deferred for redelivery.
    The restart function [render_config] defines,
    [daemon_reload_and_restart], does propagate: a failure of the
    daemon-reload or of the restart reaches its caller as a
    CalledProcessError, the failed command having run once and the event
    being untouched. *)
Theorem restart_failure_deferred_or_propagated (e : Env) (w : World) (service_name : string) :
  let restart := ["systemctl"; "restart"; "nfs-ganesha"] in
  let r := on_pool_initialised e w in
  let reload := ["systemctl"; "daemon-reload"] in
  let restart' := ["systemctl"; "restart"; service_name] in
  let r' := daemon_reload_and_restart e service_name w in
  (r.1 = Ok tt
   /\ trace r.2 = (trace w ++ [Exec restart (proc e restart)])%list
   /\ stored r.2 = stored w
   /\ if decide (proc e restart = 0%Z)
      then event r.2 = event w /\ log r.2 = log w
      else deferred (event r.2) = true
           /\ log r.2 = (log w ++ [(ERROR, "Failed torestart nfs-ganesha")])%list)
  /\ (event r'.2 = event w
      /\ if decide (proc e reload = 0%Z)
         then if decide (proc e restart' = 0%Z)
              then r'.1 = Ok tt
                   /\ trace r'.2 = (trace w ++ [Exec reload 0%Z; Exec restart' 0%Z])%list
              else r'.1 = Raise (CalledProcessError (proc e restart') restart')
                   /\ trace r'.2 = (trace w ++ [Exec reload 0%Z;
                                                Exec restart' (proc e restart')])%list
         else r'.1 = Raise (CalledProcessError (proc e reload) reload)
              /\ trace r'.2 = (trace w ++ [Exec reload (proc e reload)])%list).
Proof.
  cbv zeta. split.
  - unfold on_pool_initialised, try_except_CalledProcessError.
    destruct (decide (proc e ["systemctl"; "restart"; "nfs-ganesha"] = 0%Z)) as [H|H].
    + rewrite (check_call_ok e _ w H), H. repeat split; reflexivity.
    + rewrite (check_call_failed e _ w H). repeat split; reflexivity.
  - unfold daemon_reload_and_restart.
    destruct (decide (proc e ["systemctl"; "daemon-reload"] = 0%Z)) as [H|H].
    + rewrite (bind_ok _ _ _ _ _ (check_call_ok e _ w H)).
      destruct (decide (proc e ["systemctl"; "restart"; service_name] = 0%Z)) as [H'|H'].
      * rewrite (check_call_ok e _ _ H'). cbn.
        rewrite <- app_assoc. repeat split; reflexivity.
      * rewrite (check_call_failed e _ _ H'). cbn.
        rewrite <- app_assoc. repeat split; reflexivity.
    + rewrite (bind_raise _ _ _ _ _ (check_call_failed e _ w H)).
      repeat split; reflexivity.
Qed.

(** C10, as stated, fails: while the broker is not available
    [request_ceph_pool] returns without deferring the fact. *)
Lemma broker_not_ready_not_deferred :
  broker_available env_waiting = false
  /\ (request_ceph_pool env_waiting world0).1 = Ok tt
  /\ deferred (event (request_ceph_pool env_waiting world0).2) = false
  /\ trace (request_ceph_pool env_waiting world0).2 = [].
Proof. repeat split; vm_compute; reflexivity. Qed.

(** C10, amended: a dependency that has not arrived is never an error:
    the handler returns and logs at INFO level only.  While the pools
    are not available [render_config] defers the fact; while the broker
    is not available [request_ceph_pool] returns without deferring it
    and changes nothing but the log. *)
Theorem not_ready_is_not_an_error (e : Env) (w : World) :
  (broker_available e = false ->
   request_ceph_pool e w
   = (Ok tt, with_log (log w ++ [(INFO, "Cannot request ceph setup at this time")]) w))
  /\ (pools_available e = false ->
      render_config e w
      = (Ok tt, with_event (mkEvent true (failure (event w)) (results (event w)))
                  (with_log (log w ++ [(INFO, "Defering setup")]) w))).
Proof.
  split.
  - intros H. unfold request_ceph_pool. rewrite H. reflexivity.
  - apply render_config_waiting.
Qed.

Lemma not_ready_is_not_an_error_witness :
  broker_available env_waiting = false
  /\ pools_available env_waiting = false
  /\ request_ceph_pool env_waiting world0
     = (Ok tt, with_log (log world0 ++ [(INFO, "Cannot request ceph setup at this time")])
                 world0)
  /\ render_config env_waiting world0
     = (Ok tt, with_event (mkEvent true (failure (event world0)) (results (event world0)))
                 (with_log (log world0 ++ [(INFO, "Defering setup")]) world0)).
Proof.
  exact (conj eq_refl (conj eq_refl
    (conj (proj1 (not_ready_is_not_an_error env_waiting world0) eq_refl)
          (proj2 (not_ready_is_not_an_error env_waiting world0) eq_refl)))).
Defined.

(** * Further properties *)

(** ** The order on strings and the monitor hosts *)

Lemma compare_refl s : String.compare s s = Eq.
Proof.
  induction s as [|c s IH]; cbn; [reflexivity|].
  unfold Ascii.compare. rewrite N.compare_refl. exact IH.
Qed.

Lemma compare_Lt_trans s1 : forall s2 s3,
  String.compare s1 s2 = Lt -> String.compare s2 s3 = Lt ->
  String.compare s1 s3 = Lt.
Proof.
  induction s1 as [|c1 s1 IH]; intros [|c2 s2] [|c3 s3]; cbn;
    try discriminate; auto.
  unfold Ascii.compare.
  destruct (N.compare_spec (N_of_ascii c1) (N_of_ascii c2)) as [E12|L12|G12];
    try discriminate;
    destruct (N.compare_spec (N_of_ascii c2) (N_of_ascii c3)) as [E23|L23|G23];
    try discriminate; intros H12 H23.
  - rewrite E12, E23, N.compare_refl. eauto.
  - rewrite E12. apply N.compare_lt_iff in L23. rewrite L23. reflexivity.
  - rewrite <- E23. apply N.compare_lt_iff in L12. rewrite L12. reflexivity.
  - assert (H : (N_of_ascii c1 < N_of_ascii c3)%N) by (etrans; eassumption).
    apply N.compare_lt_iff in H. rewrite H. reflexivity.
Qed.

#[global] Instance str_le_trans : Transitive str_le.
Proof.
  intros a b c. unfold str_le, String.leb.
  destruct (String.compare a b) eqn:Hab; try discriminate;
    destruct (String.compare b c) eqn:Hbc; try discriminate; intros _ _.
  - apply String.compare_eq_iff in Hab, Hbc. subst. rewrite compare_refl. reflexivity.
  - apply String.compare_eq_iff in Hab. subst. rewrite Hbc. reflexivity.
  - apply String.compare_eq_iff in Hbc. subst. rewrite Hab. reflexivity.
  - rewrite (compare_Lt_trans _ _ _ Hab Hbc). reflexivity.
Qed.

#[global] Instance str_le_antisym : AntiSymm (=) str_le.
Proof. intros a b. apply String.leb_antisym. Qed.

#[global] Instance str_le_total : Total str_le.
Proof. intros a b. apply String.leb_total. Qed.

Lemma sorted_Permutation l1 l2 : l1 ≡ₚ l2 -> sorted l1 = sorted l2.
Proof.
  intros H. apply (Sorted_unique str_le); try apply Sorted_merge_sort; try apply _.
  unfold sorted. rewrite !merge_sort_Permutation. exact H.
Qed.

(** X1: the monitor hosts the adapter hands to the templates do not
    depend on the order in which the relation lists them: two relation
    data whose host lists are permutations of one another give the same
    string, whose hosts are those of the relation in ascending order. *)
Theorem mon_hosts_order_independent (d1 d2 : RelationData) :
  rd_mon_hosts d1 ≡ₚ rd_mon_hosts d2 ->
  CephClientAdapter.mon_hosts d1 = CephClientAdapter.mon_hosts d2
  /\ exists hosts, CephClientAdapter.mon_hosts d1 = String.concat " " hosts
                   /\ hosts ≡ₚ rd_mon_hosts d1
                   /\ Sorted str_le hosts.
Proof.
  intros H. unfold CephClientAdapter.mon_hosts. split.
  - rewrite (sorted_Permutation _ _ H). reflexivity.
  - exists (sorted (rd_mon_hosts d1)). split; [reflexivity|]. split.
    + apply merge_sort_Permutation.
    + apply Sorted_merge_sort. apply _.
Qed.

Lemma mon_hosts_order_independent_witness :
  CephClientAdapter.mon_hosts (mkRelationData ["10.0.0.3"; "10.0.0.12"; "10.0.0.1"] "cephx" "k")
  = CephClientAdapter.mon_hosts (mkRelationData ["10.0.0.1"; "10.0.0.3"; "10.0.0.12"] "none" "k")
  /\ CephClientAdapter.mon_hosts (mkRelationData ["10.0.0.3"; "10.0.0.12"; "10.0.0.1"] "cephx" "k")
     = "10.0.0.1 10.0.0.12 10.0.0.3".
Proof.
  split; [|reflexivity].
  apply (mon_hosts_order_independent
           (mkRelationData ["10.0.0.3"; "10.0.0.12"; "10.0.0.1"] "cephx" "k")
           (mkRelationData ["10.0.0.1"; "10.0.0.3"; "10.0.0.12"] "none" "k")).
  cbn [rd_mon_hosts]. rewrite (Permutation_swap "10.0.0.3"). apply Permutation_skip.
  apply Permutation_swap.
Defined.

(** ** What a delivery leaves alone *)

Lemma keeps_deliver_one {X} (f : World -> X) (handler : M unit) :
  (forall w, f (with_event fresh_event w) = f w) ->
  keeps f handler ->
  keeps f (for_ [handler] (fun h => bind (modify (with_event fresh_event)) (fun _ => h))).
Proof.
  intros Hreset Hh. cbn [for_].
  apply keeps_bind; [|intros _; apply keeps_ret].
  apply keeps_bind; [apply keeps_modify, Hreset|intros _; exact Hh].
Qed.

Lemma keeps_deliver_two {X} (f : World -> X) (h1 h2 : M unit) :
  (forall w, f (with_event fresh_event w) = f w) ->
  keeps f h1 -> keeps f h2 ->
  keeps f (for_ [h1; h2] (fun h => bind (modify (with_event fresh_event)) (fun _ => h))).
Proof.
  intros Hreset H1 H2. cbn [for_].
  apply keeps_bind; [|intros _; apply (keeps_deliver_one f h2 Hreset H2)].
  apply keeps_bind; [apply keeps_modify, Hreset|intros _; exact H1].
Qed.

Section Untouched.
Context (e : Env).

Lemma request_ceph_pool_keeps_stored : keeps stored (request_ceph_pool e).
Proof.
  unfold request_ceph_pool, logging, emit.
  destruct (broker_available e); cbn [negb]; [|keeps_step].
  destruct (bluestore_compression e); repeat plain_step.
Qed.

Lemma request_ceph_pool_keeps_event : keeps event (request_ceph_pool e).
Proof.
  unfold request_ceph_pool, logging, emit.
  destruct (broker_available e); cbn [negb]; [|keeps_step].
  destruct (bluestore_compression e); repeat plain_step.
Qed.

Lemma request_ceph_pool_keeps_peers : keeps peers (request_ceph_pool e).
Proof.
  unfold request_ceph_pool, logging, emit.
  destruct (broker_available e); cbn [negb]; [|keeps_step].
  destruct (bluestore_compression e); repeat plain_step.
Qed.

Lemma on_pool_initialised_keeps_stored : keeps stored (on_pool_initialised e).
Proof. unfold on_pool_initialised, logging, defer. repeat plain_step. Qed.

Lemma on_pool_initialised_keeps_peers : keeps peers (on_pool_initialised e).
Proof. unfold on_pool_initialised, logging, defer. repeat plain_step. Qed.

Lemma on_reload_nonce_keeps_stored : keeps stored (on_reload_nonce e).
Proof. unfold on_reload_nonce, logging, call. repeat plain_step. Qed.

Lemma on_reload_nonce_keeps_peers : keeps peers (on_reload_nonce e).
Proof. unfold on_reload_nonce, logging, call. repeat plain_step. Qed.

Lemma on_reload_nonce_keeps_event : keeps event (on_reload_nonce e).
Proof. unfold on_reload_nonce, logging, call. repeat plain_step. Qed.

Lemma on_departing_keeps_peers : keeps peers (on_departing e).
Proof. unfold on_departing, set_is_cluster_setup. repeat plain_step. Qed.

Lemma on_departing_keeps_event : keeps event (on_departing e).
Proof. unfold on_departing, set_is_cluster_setup. repeat plain_step. Qed.

Lemma create_share_action_keeps_stored : keeps stored (create_share_action e).
Proof.
  unfold create_share_action, fail, create_share, trigger_reload, set_results, emit.
  destruct (is_leader e); cbn [negb]; repeat plain_step.
  destruct (ganesha_create_share e _); repeat plain_step.
Qed.

Lemma create_share_action_keeps_deferred :
  keeps (fun w => deferred (event w)) (create_share_action e).
Proof.
  unfold create_share_action, fail, create_share, trigger_reload, set_results, emit.
  destruct (is_leader e); cbn [negb]; repeat plain_step.
  destruct (ganesha_create_share e _); repeat plain_step.
Qed.

Lemma create_share_action_keeps_latch :
  keeps (fun w => pool_initialised (peers w)) (create_share_action e).
Proof.
  unfold create_share_action, fail, create_share, trigger_reload, set_results, emit.
  destruct (is_leader e); cbn [negb]; repeat plain_step.
  destruct (ganesha_create_share e _); repeat plain_step.
Qed.

Lemma render_config_keeps_peers : keeps peers (render_config e).
Proof.
  unfold render_config.
  destruct (pools_available e); cbn [negb];
    [|unfold logging, defer; repeat keeps_step].
  unfold mkdir, restart_on_change, _render_configs, render, service_restart,
    set_is_started, update_status, logging, emit.
  cbv zeta. destruct (mkdir_ok e); repeat plain_step.
  all: destruct (template e _); repeat plain_step.
Qed.

Lemma render_config_keeps_is_cluster_setup :
  keeps (fun w => is_cluster_setup (stored w)) (render_config e).
Proof.
  unfold render_config.
  destruct (pools_available e); cbn [negb];
    [|unfold logging, defer; repeat keeps_step].
  unfold mkdir, restart_on_change, _render_configs, render, service_restart,
    set_is_started, update_status, logging, emit.
  cbv zeta. destruct (mkdir_ok e); repeat plain_step.
  all: destruct (template e _); repeat plain_step.
Qed.

End Untouched.

(** X2: the facts broker-available, config-changed, pool-initialised,
    reload-nonce and the create-share action never change the stored
    flags, whether their handler returns or raises. *)
Theorem stored_flags_changed_by_three_facts_only (e : Env) (f : Fact) (w : World) :
  f <> PoolsAvailable -> f <> UpgradeCharm -> f <> Departing ->
  stored (deliver e f w).2 = stored w.
Proof.
  intros H1 H2 H3. revert w. change (keeps stored (deliver e f)). unfold deliver.
  destruct f; try congruence; cbn [observers];
    apply keeps_deliver_one; try reflexivity.
  - apply request_ceph_pool_keeps_stored.
  - apply request_ceph_pool_keeps_stored.
  - apply on_pool_initialised_keeps_stored.
  - apply on_reload_nonce_keeps_stored.
  - apply create_share_action_keeps_stored.
Qed.

Lemma stored_flags_changed_by_three_facts_only_witness :
  stored (deliver env_failing PoolInitialised world_joined).2 = stored world_joined.
Proof.
  apply (stored_flags_changed_by_three_facts_only env_failing PoolInitialised world_joined);
    discriminate.
Defined.

Lemma keeps_compose {A X Y} (f : World -> X) (g : X -> Y) (m : M A) :
  keeps f m -> keeps (fun w => g (f w)) m.
Proof. intros H w. cbn. rewrite (H w). reflexivity. Qed.

Lemma deliver_one_world (handler : M unit) w :
  (for_ [handler] (fun h => bind (modify (with_event fresh_event)) (fun _ => h)) w).2
  = (handler (with_event fresh_event w)).2.
Proof.
  cbn [for_]. unfold bind, modify, ret.
  destruct (handler (with_event fresh_event w)) as [[[]|x] w']; reflexivity.
Qed.

(** X3: the facts broker-available, config-changed, node-departing and
    reload-nonce and the create-share action are never deferred: when
    their delivery ends, by a return or by an exception, the event is not
    marked for redelivery. *)
Theorem five_facts_never_deferred (e : Env) (f : Fact) (w : World) :
  f <> PoolsAvailable -> f <> UpgradeCharm -> f <> PoolInitialised ->
  deferred (event (deliver e f w).2) = false.
Proof.
  intros H1 H2 H3. unfold deliver.
  destruct f; try congruence; cbn [observers]; rewrite deliver_one_world.
  - rewrite request_ceph_pool_keeps_event. reflexivity.
  - rewrite request_ceph_pool_keeps_event. reflexivity.
  - rewrite on_departing_keeps_event. reflexivity.
  - rewrite on_reload_nonce_keeps_event. reflexivity.
  - rewrite create_share_action_keeps_deferred. reflexivity.
Qed.

Lemma five_facts_never_deferred_witness :
  (deliver env_failing Departing world_joined).1
  = Raise (CalledProcessError 1 (grace env_failing "remove"))
  /\ deferred (event (deliver env_failing Departing world_joined).2) = false.
Proof.
  split; [vm_compute; reflexivity|].
  apply (five_facts_never_deferred env_failing Departing world_joined); discriminate.
Defined.

(** ** Who sets the latch and who bumps the nonce *)

Section Latch.
Context (e : Env).

Lemma bootstrap_failing_keeps_peers :
  proc e (index_put e) <> 0%Z \/ proc e (counter_put e) <> 0%Z ->
  keeps peers (bootstrap e).
Proof.
  intros H w.
  destruct (decide (proc e (index_put e) = 0%Z)) as [Hi|Hi].
  - destruct H as [H|Hc]; [contradiction|].
    destruct (bootstrap_counter_failed e w Hi Hc) as (_ & _ & _ & Hp & _).
    exact Hp.
  - destruct (bootstrap_index_failed e w Hi) as (_ & _ & _ & Hp & _). exact Hp.
Qed.

Lemma setup_ganesha_keeps_latch :
  is_leader e = false
  \/ proc e (index_put e) <> 0%Z \/ proc e (counter_put e) <> 0%Z ->
  keeps latch (setup_ganesha e).
Proof.
  intros H. unfold setup_ganesha.
  apply keeps_bind; [apply (keeps_compose peers), grace_join_keeps_peers|intros _].
  destruct (is_leader e); cbn [negb]; [|apply keeps_ret].
  destruct H as [H|H]; [discriminate|].
  apply (keeps_compose peers), bootstrap_failing_keeps_peers, H.
Qed.

Lemma setup_ganesha_keeps_nonce : keeps nonce (setup_ganesha e).
Proof.
  unfold setup_ganesha, grace_join, bootstrap, set_is_cluster_setup,
    NamedTemporaryFile, file_write, file_seek0, initialised_pool, emit,
    logging, defer.
  repeat plain_step.
Qed.

End Latch.

(** X4: only the leader's bootstrap sets the latch, and only once both
    puts have succeeded: a delivery that changes [pool_initialised] is
    that of a pools-available fact to the leader in which the index put
    and the counter put both exit with 0. *)
Theorem latch_set_by_leader_bootstrap_only (e : Env) (f : Fact) (w : World) :
  latch (deliver e f w).2 <> latch w ->
  f = PoolsAvailable /\ is_leader e = true
  /\ proc e (index_put e) = 0%Z /\ proc e (counter_put e) = 0%Z.
Proof.
  intros H.
  assert (Hreset : forall w, latch (with_event fresh_event w) = latch w)
    by reflexivity.
  destruct f;
    try (exfalso; apply H; revert w H; unfold deliver; cbn [observers]; intros w _;
         apply (keeps_deliver_one latch); [exact Hreset|];
         first [ apply (keeps_compose peers), request_ceph_pool_keeps_peers
               | apply (keeps_compose peers), render_config_keeps_peers
               | apply (keeps_compose peers), on_pool_initialised_keeps_peers
               | apply (keeps_compose peers), on_departing_keeps_peers
               | apply (keeps_compose peers), on_reload_nonce_keeps_peers
               | apply create_share_action_keeps_latch ]).
  destruct (is_leader e) eqn:Hl;
    [destruct (decide (proc e (index_put e) = 0%Z)) as [Hi|Hi];
       [destruct (decide (proc e (counter_put e) = 0%Z)) as [Hc|Hc]|]|];
    [auto| | |];
    exfalso; apply H; unfold deliver; cbn [observers];
    apply (keeps_deliver_two latch); try exact Hreset;
    try apply (keeps_compose peers), render_config_keeps_peers;
    apply setup_ganesha_keeps_latch; auto.
Qed.

Lemma latch_set_by_leader_bootstrap_only_witness :
  latch (deliver env0 PoolsAvailable world0).2 <> latch world0
  /\ is_leader env0 = true
  /\ proc env0 (index_put env0) = 0%Z /\ proc env0 (counter_put env0) = 0%Z.
Proof.
  assert (H : latch (deliver env0 PoolsAvailable world0).2 <> latch world0)
    by (vm_compute; discriminate).
  split; [exact H|].
  exact (proj2 (latch_set_by_leader_bootstrap_only env0 PoolsAvailable world0 H)).
Defined.

(** X5: only the create-share action bumps the reload nonce, on the
    leader and once the share is created: a delivery that changes
    [reload_nonce] is that of the action to the leader, the collaborator
    has returned an export path, and the nonce has grown by one. *)
Theorem nonce_bumped_by_leader_create_share_only (e : Env) (f : Fact) (w : World) :
  nonce (deliver e f w).2 <> nonce w ->
  f = CreateShareAction /\ is_leader e = true
  /\ is_Some (ganesha_create_share e (params e !! "size"))
  /\ nonce (deliver e f w).2 = S (nonce w).
Proof.
  intros H.
  assert (Hreset : forall w, nonce (with_event fresh_event w) = nonce w)
    by reflexivity.
  destruct f;
    try solve
      [ exfalso; apply H; revert w H; unfold deliver; cbn [observers]; intros w _;
        first [ apply (keeps_deliver_one nonce); [exact Hreset|]
              | apply (keeps_deliver_two nonce); [exact Hreset| |] ];
        first [ apply (keeps_compose peers), request_ceph_pool_keeps_peers
              | apply (keeps_compose peers), on_pool_initialised_keeps_peers
              | apply (keeps_compose peers), on_departing_keeps_peers
              | apply (keeps_compose peers), on_reload_nonce_keeps_peers
              | apply (keeps_compose peers), render_config_keeps_peers
              | apply setup_ganesha_keeps_nonce ] ].
  revert H. unfold deliver. cbn [observers]. rewrite deliver_one_world.
  unfold create_share_action.
  destruct (is_leader e); cbn [negb]; [|intros H; exfalso; apply H; reflexivity].
  unfold create_share. unfold bind at 1. unfold bind at 1.
  unfold emit at 1. unfold modify at 1.
  destruct (ganesha_create_share e _) as [export_path|];
    [|intros H; exfalso; apply H; reflexivity].
  intros _. repeat split; eauto.
Qed.

Lemma nonce_bumped_by_leader_create_share_only_witness :
  nonce (deliver env0 CreateShareAction world0).2 <> nonce world0
  /\ is_leader env0 = true
  /\ is_Some (ganesha_create_share env0 (params env0 !! "size"))
  /\ nonce (deliver env0 CreateShareAction world0).2 = S (nonce world0).
Proof.
  assert (H : nonce (deliver env0 CreateShareAction world0).2 <> nonce world0)
    by (vm_compute; discriminate).
  split; [exact H|].
  exact (proj2 (nonce_bumped_by_leader_create_share_only env0 CreateShareAction world0 H)).
Defined.

(** ** Invariants *)

Section Preserves.
Context (I : World -> Prop).

Lemma preserves_ret {A} (a : A) : preserves I (ret a).
Proof. intros w H. exact H. Qed.

Lemma preserves_bind {A B} (m : M A) (k : A -> M B) :
  preserves I m -> (forall a, preserves I (k a)) -> preserves I (bind m k).
Proof.
  intros Hm Hk w H. unfold bind. specialize (Hm w H).
  destruct (m w) as [[a|x] w1]; cbn in *; [apply Hk, Hm|exact Hm].
Qed.

Lemma preserves_of_keeps {A X} (f : World -> X) (m : M A) :
  (forall w w', f w' = f w -> I w -> I w') -> keeps f m -> preserves I m.
Proof. intros Hf Hm w H. apply (Hf w); [apply Hm|exact H]. Qed.

Lemma preserves_raise {A} x : preserves I (@raise A x).
Proof. intros w H. exact H. Qed.

Lemma preserves_get {A} (g : World -> A) : preserves I (get g).
Proof. intros w H. exact H. Qed.

Lemma preserves_modify (g : World -> World) :
  (forall w, I w -> I (g w)) -> preserves I (modify g).
Proof. intros H w Hw. apply H, Hw. Qed.

Lemma preserves_for {A} (l : list A) (body : A -> M unit) :
  (forall x, preserves I (body x)) -> preserves I (for_ l body).
Proof.
  intros H. induction l as [|x l IH]; cbn [for_].
  - apply preserves_ret.
  - apply preserves_bind; auto.
Qed.

Lemma preserves_if {A} (b : bool) (m1 m2 : M A) :
  preserves I m1 -> preserves I m2 -> preserves I (if b then m1 else m2).
Proof. destruct b; auto. Qed.

Lemma preserves_run e argv :
  (forall o w, I w -> I (with_objects o w)) ->
  (forall x w, I w -> I (with_trace (trace w ++ [x]) w)) ->
  preserves I (run e argv).
Proof.
  intros Ho Ht. unfold run. cbv zeta.
  apply preserves_bind; [apply preserves_modify; intros w; apply Ht|intros _].
  apply preserves_bind; [|intros _; apply preserves_ret].
  case_decide; [|apply preserves_ret].
  apply preserves_modify. intros w Hw. unfold rados_put.
  repeat (match goal with |- context [match ?l with [] => _ | _ :: _ => _ end] =>
            destruct l end; try exact Hw).
  case_decide; [apply Ho, Hw|exact Hw].
Qed.

Lemma preserves_deliver (l : list (M unit)) :
  (forall w, I w -> I (with_event fresh_event w)) ->
  Forall (preserves I) l ->
  preserves I (for_ l (fun h => bind (modify (with_event fresh_event)) (fun _ => h))).
Proof.
  intros Hreset Hl. induction Hl as [|h l Hh _ IH]; cbn [for_].
  - apply preserves_ret.
  - apply preserves_bind; [|intros _; exact IH].
    apply preserves_bind; [|intros _; exact Hh].
    intros w H. apply Hreset, H.
Qed.

End Preserves.

Lemma run_facts_preserves (I : World -> Prop) :
  (forall e f, preserves I (deliver e f)) ->
  forall fs w, I w -> I (run_facts fs w).
Proof.
  intros H fs. induction fs as [|[e f] fs IH]; intros w Hw; cbn [run_facts].
  - exact Hw.
  - apply IH, H, Hw.
Qed.

(** ** The started flag *)

(** One step of a proof that a computation preserves an invariant that
    looks at the stored flags only. *)
Ltac pres_step :=
  first
    [ apply preserves_ret
    | apply preserves_raise
    | apply preserves_get
    | apply preserves_run; intros; assumption
    | apply preserves_bind; [|intros ?]
    | apply preserves_for; intros ?
    | apply preserves_if
    | apply preserves_modify; intros ? ?; first [assumption|reflexivity] ].

Section Started.
Context (e : Env).

Lemma started_of_stored w w' : stored w' = stored w -> started w -> started w'.
Proof. unfold started. intros ->. auto. Qed.

Lemma started_of_is_started w w' :
  is_started (stored w') = is_started (stored w) -> started w -> started w'.
Proof. unfold started. intros ->. auto. Qed.

Lemma on_departing_keeps_is_started :
  keeps (fun w => is_started (stored w)) (on_departing e).
Proof. unfold on_departing, set_is_cluster_setup. repeat plain_step. Qed.

Lemma setup_ganesha_keeps_is_started :
  keeps (fun w => is_started (stored w)) (setup_ganesha e).
Proof.
  unfold setup_ganesha.
  apply keeps_bind; [apply grace_join_keeps_is_started|intros _].
  apply keeps_if; [apply keeps_ret|].
  apply (keeps_compose stored), bootstrap_keeps_stored.
Qed.

Lemma render_config_preserves_started : preserves started (render_config e).
Proof.
  unfold render_config.
  destruct (pools_available e); cbn [negb];
    [|unfold logging, defer; repeat pres_step].
  unfold mkdir, restart_on_change, _render_configs, render, service_restart,
    set_is_started, update_status, logging, emit.
  cbv zeta. destruct (mkdir_ok e); repeat pres_step.
  all: destruct (template e _); repeat pres_step.
Qed.

Lemma deliver_preserves_started f : preserves started (deliver e f).
Proof.
  unfold deliver. apply preserves_deliver; [intros w H; exact H|].
  destruct f; cbn [observers];
    repeat first [apply Forall_cons_2|apply Forall_nil_2];
    first
      [ apply render_config_preserves_started
      | apply (preserves_of_keeps started stored); [apply started_of_stored|];
        first [ apply request_ceph_pool_keeps_stored
              | apply on_pool_initialised_keeps_stored
              | apply on_reload_nonce_keeps_stored
              | apply create_share_action_keeps_stored ]
      | apply (preserves_of_keeps started (fun w => is_started (stored w)));
        [apply started_of_is_started|];
        first [ apply on_departing_keeps_is_started
              | apply setup_ganesha_keeps_is_started ] ].
Qed.

End Started.

(** X6: [is_started] is never cleared: once it is true it is true after
    every sequence of facts, whatever the environments and whether the
    handlers return or raise. *)
Theorem is_started_never_cleared (fs : list (Env * Fact)) (w : World) :
  is_started (stored w) = true ->
  is_started (stored (run_facts fs w)) = true.
Proof.
  apply (run_facts_preserves started). intros e f. apply deliver_preserves_started.
Qed.

Lemma is_started_never_cleared_witness :
  is_started (stored world_joined) = true
  /\ is_started (stored (run_facts [(env_failing, PoolsAvailable);
                                     (env_waiting, UpgradeCharm);
                                     (env_failing, Departing)] world_joined)) = true.
Proof.
  split; [reflexivity|].
  apply (is_started_never_cleared
           [(env_failing, PoolsAvailable); (env_waiting, UpgradeCharm);
            (env_failing, Departing)] world_joined).
  reflexivity.
Defined.

(** ** The membership flag and the grace commands *)

(** The flag and the last successful grace command, side by side. *)
Lemma grace_consistent_of_view w w' :
  (is_cluster_setup (stored w'), last_grace w')
  = (is_cluster_setup (stored w), last_grace w) ->
  grace_consistent w -> grace_consistent w'.
Proof. unfold grace_consistent. intros [= -> ->]. auto. Qed.

Lemma last_grace_emit x w :
  last_grace (with_trace (trace w ++ [x]) w)
  = match grace_verb_of x with Some verb => Some verb | None => last_grace w end.
Proof.
  unfold last_grace. cbn [trace with_trace]. rewrite omap_app.
  change (omap grace_verb_of [x])
    with (match grace_verb_of x with Some verb => [verb] | None => [] end).
  destruct (grace_verb_of x) as [verb|].
  - apply last_snoc.
  - rewrite app_nil_r. reflexivity.
Qed.

Lemma grace_view_emit x w :
  grace_verb_of x = None ->
  (is_cluster_setup (stored (with_trace (trace w ++ [x]) w)),
   last_grace (with_trace (trace w ++ [x]) w))
  = (is_cluster_setup (stored w), last_grace w).
Proof. intros H. rewrite last_grace_emit, H. reflexivity. Qed.

Ltac grace_step :=
  first
    [ apply keeps_check_call;
      [reflexivity|intros ?; apply grace_view_emit; reflexivity]
    | apply keeps_run;
      [reflexivity|intros ?; apply grace_view_emit; reflexivity]
    | apply keeps_modify; intros ?; apply grace_view_emit; reflexivity
    | keeps_step ].

Section Membership.
Context (e : Env).

Lemma request_ceph_pool_keeps_view : keeps grace_view (request_ceph_pool e).
Proof.
  unfold request_ceph_pool, logging, emit.
  destruct (broker_available e); cbn [negb]; [|keeps_step].
  destruct (bluestore_compression e); repeat grace_step.
Qed.

Lemma render_config_keeps_view : keeps grace_view (render_config e).
Proof.
  unfold render_config.
  destruct (pools_available e); cbn [negb];
    [|unfold logging, defer; repeat keeps_step].
  unfold mkdir, restart_on_change, _render_configs, render, service_restart,
    set_is_started, update_status, logging, emit.
  cbv zeta. destruct (mkdir_ok e); repeat grace_step.
  all: destruct (template e _); repeat grace_step.
Qed.

Lemma on_pool_initialised_keeps_view : keeps grace_view (on_pool_initialised e).
Proof. unfold on_pool_initialised, logging, defer. repeat grace_step. Qed.

Lemma on_reload_nonce_keeps_view : keeps grace_view (on_reload_nonce e).
Proof. unfold on_reload_nonce, logging, call. repeat grace_step. Qed.

Lemma create_share_action_keeps_view : keeps grace_view (create_share_action e).
Proof.
  unfold create_share_action, fail, create_share, trigger_reload, set_results, emit.
  destruct (is_leader e); cbn [negb]; repeat grace_step.
  destruct (ganesha_create_share e _); repeat grace_step.
Qed.

Lemma bootstrap_keeps_view : keeps grace_view (bootstrap e).
Proof.
  unfold bootstrap, NamedTemporaryFile, file_write, file_seek0,
    initialised_pool, emit, logging, defer.
  repeat grace_step.
Qed.

Lemma grace_verb_of_failed verb rc :
  rc <> 0%Z -> grace_verb_of (Exec (grace e verb) rc) = None.
Proof.
  intros H. unfold grace_verb_of, grace. rewrite decide_False; [reflexivity|].
  intros [_ ?]. contradiction.
Qed.

Lemma grace_join_preserves_consistent : preserves grace_consistent (grace_join e).
Proof.
  intros w H. destruct (is_cluster_setup (stored w)) eqn:Hs.
  - rewrite (grace_join_skipped e w Hs). exact H.
  - destruct (decide (proc e (grace e "add") = 0%Z)) as [Hrc|Hrc].
    + rewrite (grace_join_done e w Hs Hrc). unfold grace_consistent.
      cbn [snd stored with_stored is_cluster_setup].
      change (last_grace (with_stored _ ?w')) with (last_grace w').
      rewrite last_grace_emit. split; reflexivity.
    + rewrite (grace_join_failed e w Hs Hrc).
      apply (grace_consistent_of_view w); [|exact H].
      apply grace_view_emit, grace_verb_of_failed, Hrc.
Qed.

Lemma setup_ganesha_preserves_consistent :
  preserves grace_consistent (setup_ganesha e).
Proof.
  unfold setup_ganesha.
  apply preserves_bind; [apply grace_join_preserves_consistent|intros _].
  apply preserves_if; [apply preserves_ret|].
  apply (preserves_of_keeps grace_consistent grace_view);
    [apply grace_consistent_of_view|apply bootstrap_keeps_view].
Qed.

Lemma on_departing_preserves_consistent :
  preserves grace_consistent (on_departing e).
Proof.
  intros w H. unfold on_departing.
  destruct (decide (proc e (grace e "remove") = 0%Z)) as [Hrc|Hrc].
  - rewrite (bind_ok _ _ _ _ _ (check_call_ok e _ w Hrc)).
    unfold grace_consistent.
    cbn [snd set_is_cluster_setup modify stored with_stored is_cluster_setup].
    change (last_grace (with_stored _ ?w')) with (last_grace w').
    rewrite rados_put_grace, last_grace_emit. split; discriminate.
  - rewrite (bind_raise _ _ _ _ _ (check_call_failed e _ w Hrc)).
    apply (grace_consistent_of_view w); [|exact H].
    apply grace_view_emit, grace_verb_of_failed, Hrc.
Qed.

Lemma deliver_preserves_consistent f : preserves grace_consistent (deliver e f).
Proof.
  unfold deliver. apply preserves_deliver; [intros w H; exact H|].
  destruct f; cbn [observers];
    repeat first [apply Forall_cons_2|apply Forall_nil_2];
    first
      [ apply setup_ganesha_preserves_consistent
      | apply on_departing_preserves_consistent
      | apply (preserves_of_keeps grace_consistent grace_view);
        [apply grace_consistent_of_view|];
        first [ apply request_ceph_pool_keeps_view
              | apply render_config_keeps_view
              | apply on_pool_initialised_keeps_view
              | apply on_reload_nonce_keeps_view
              | apply create_share_action_keeps_view ] ].
Qed.

End Membership.

(** X7: the membership flag tells what the grace commands did.  If
    [is_cluster_setup] is true exactly when the last grace command that
    succeeded was an add, which holds of a node that has run no command
    and has the flag false, then this still holds after every sequence
    of facts, whatever the environments. *)
Theorem membership_flag_tracks_grace_commands (fs : list (Env * Fact)) (w : World) :
  grace_consistent w -> grace_consistent (run_facts fs w).
Proof.
  apply (run_facts_preserves grace_consistent). intros e f.
  apply deliver_preserves_consistent.
Qed.

Lemma membership_flag_tracks_grace_commands_witness :
  grace_consistent world0
  /\ grace_consistent (run_facts [(env0, PoolsAvailable); (env_failing, Departing);
                                  (env0, Departing); (env_failing, PoolsAvailable)]
                         world0).
Proof.
  assert (H : grace_consistent world0) by (split; discriminate).
  split; [exact H|].
  exact (membership_flag_tracks_grace_commands
           [(env0, PoolsAvailable); (env_failing, Departing);
            (env0, Departing); (env_failing, PoolsAvailable)] world0 H).
Defined.

(** ** A healthy leader converges in one delivery *)


Lemma deliver_two_raised (h1 h2 : M unit) w x wb :
  h1 (with_event fresh_event w) = (Raise x, wb) ->
  for_ [h1; h2] (fun h => bind (modify (with_event fresh_event)) (fun _ => h)) w
  = (Raise x, wb).
Proof. intros H. cbn [for_]. unfold bind, modify, ret. rewrite H. reflexivity. Qed.






(** ** A render pass that cannot complete *)

Lemma restart_on_change_raised e restart_map restart_functions (f : M unit) w x w' :
  f w = (Raise x, w') ->
  restart_on_change e restart_map restart_functions f w = (Raise x, w').
Proof.
  intros H. unfold restart_on_change. unfold bind at 1. unfold get at 1.
  unfold bind at 1. rewrite H. reflexivity.
Qed.

Lemma _render_configs_raises e w :
  forallb (fun target => bool_decide (is_Some (template e target)))
    (map fst RESTART_MAP) = false ->
  exists x w', _render_configs e w = (Raise x, w')
               /\ stored w' = stored w /\ event w' = event w
               /\ peers w' = peers w /\ log w' = log w
               /\ restarts_so_far w' = restarts_so_far w.
Proof.
  cbn [map fst RESTART_MAP forallb]. intros H. unfold _render_configs.
  cbn [map fst RESTART_MAP for_]. unfold render.
  assert (Hquiet : forall source target w0,
            restarts_so_far (with_trace (trace w0 ++ [Render source target]) w0)
            = restarts_so_far w0).
  { intros source target w0. unfold restarts_so_far. cbn [trace with_trace].
    rewrite filter_app. cbn. apply app_nil_r. }
  destruct (template e GANESHA_CONF) as [t1|];
    [|eexists _, _; split; [reflexivity|repeat split]].
  destruct (template e CEPH_CONF) as [t2|];
    [|eexists _, _; split; [reflexivity|repeat split; apply Hquiet]].
  destruct (template e GANESHA_KEYRING) as [t3|];
    [|eexists _, _; split; [reflexivity|repeat split];
      cbn [snd]; etrans; [apply Hquiet|apply Hquiet]].
  exfalso. revert H. rewrite !bool_decide_eq_true_2 by eauto. discriminate.
Qed.

Lemma restarts_so_far_emit x w :
  is_restart x = false ->
  restarts_so_far (with_trace (trace w ++ [x]) w) = restarts_so_far w.
Proof.
  intros H. unfold restarts_so_far. cbn [trace with_trace].
  rewrite filter_app, filter_cons_False, filter_nil by (rewrite H; discriminate).
  apply app_nil_r.
Qed.

(** X9: a render pass that cannot complete sets nothing.  With the pools
    available, if the directory cannot be made or a target does not
    render, [render_config] raises; [is_started] and the other stored
    flag are as they were, no service is restarted and the fact is not
    deferred. *)
Theorem render_failure_sets_nothing (e : Env) (w : World) :
  pools_available e = true -> renderable e = false ->
  let r := render_config e w in
  (exists x, r.1 = Raise x)
  /\ stored r.2 = stored w
  /\ event r.2 = event w
  /\ restarts_so_far r.2 = restarts_so_far w.
Proof.
  intros Hp Hr. cbv zeta. destruct (render_config e w) as [res w1] eqn:E.
  cbn [fst snd]. revert E.
  unfold render_config. rewrite Hp. cbn [negb]. cbv zeta.
  unfold renderable in Hr. unfold mkdir.
  destruct (mkdir_ok e); cbn [andb] in Hr.
  - unfold bind at 1. unfold emit at 1. unfold modify at 1.
    unfold bind at 1. unfold logging at 1. unfold modify at 1.
    match goal with |- context [bind (restart_on_change e ?rm ?rf ?f) ?k ?w0] =>
      destruct (_render_configs_raises e w0 Hr) as (x & w' & E & Hs & He & _ & _ & Hq);
      rewrite (bind_raise _ k _ _ _ (restart_on_change_raised e rm rf f w0 x w' E))
    end.
    intros [= <- <-]. split; [eauto|]. split; [exact Hs|]. split; [exact He|].
    rewrite Hq. apply (restarts_so_far_emit (Mkdir _ _)). reflexivity.
  - intros [= <- <-]. split; [eauto|]. repeat split.
Qed.

Lemma render_failure_sets_nothing_witness :
  let e := mkEnv "ceph-nfs" "node-0" ∅ true true true (fun _ => 0%Z) "k3x9q2ab" true
             (fun target => if decide (target = CEPH_CONF) then None else Some "text")
             (inr []) false "10.0.0.7" ∅ (fun _ => None) in
  (exists x, (render_config e world0).1 = Raise x)
  /\ stored (render_config e world0).2 = stored world0
  /\ event (render_config e world0).2 = event world0
  /\ restarts_so_far (render_config e world0).2 = restarts_so_far world0.
Proof.
  intros e.
  exact (render_failure_sets_nothing e world0 eq_refl eq_refl).
Defined.

(** ** Requesting the pool *)

(** X10: [request_ceph_pool] never raises, never defers and leaves the
    stored flags and the peer data alone.  With the broker available and
    valid compression options it asks for the replicated pool, named as
    the pool of every other command and tagged ganesha, and then for
    the permissions of this application's identity; with invalid
    compression options it asks for nothing and logs a warning that
    quotes the error; without the broker it asks for nothing. *)
Theorem request_ceph_pool_requests (e : Env) (w : World) :
  let r := request_ceph_pool e w in
  r.1 = Ok tt
  /\ stored r.2 = stored w /\ event r.2 = event w /\ peers r.2 = peers w
  /\ if broker_available e
     then match bluestore_compression e with
          | inr bcomp_kwargs =>
              trace r.2
              = (trace w
                 ++ [CreateReplicatedPool (pool_name e) "ganesha"
                       (config e !! "ceph-osd-replication-count")
                       (config e !! "ceph-pool-weight") bcomp_kwargs;
                     RequestCephPermissions (app_name e) CEPH_CAPABILITIES])%list
          | inl msg =>
              trace r.2 = trace w
              /\ log r.2
                 = (log w
                    ++ [(WARNING,
                         ("Caught ValueError, invalid value provided for configuration?: "
                            ++ dquote ++ msg ++ dquote)%string)])%list
          end
     else trace r.2 = trace w.
Proof.
  cbv zeta. unfold request_ceph_pool.
  destruct (broker_available e); cbn [negb]; [|repeat split].
  destruct (bluestore_compression e) as [msg|bcomp_kwargs]; [repeat split|].
  cbn. rewrite <- app_assoc. unfold config_get.
  repeat split.
  destruct (config e !! "ceph-osd-replication-count");
    destruct (config e !! "ceph-pool-weight"); reflexivity.
Qed.

(** X11: [refresh_request] asks for the pool even when the render was
    put off: while the pools are not available it returns with the fact
    deferred, has rendered nothing, and, the broker being available and
    the compression options valid, has still sent the pool and the
    permission requests. *)
Theorem refresh_request_requests_when_deferred (e : Env) (w : World) bcomp_kwargs :
  pools_available e = false ->
  broker_available e = true ->
  bluestore_compression e = inr bcomp_kwargs ->
  let r := refresh_request e w in
  r.1 = Ok tt
  /\ deferred (event r.2) = true
  /\ stored r.2 = stored w
  /\ files r.2 = files w
  /\ trace r.2
     = (trace w
        ++ [CreateReplicatedPool (pool_name e) "ganesha"
              (config e !! "ceph-osd-replication-count")
              (config e !! "ceph-pool-weight") bcomp_kwargs;
            RequestCephPermissions (app_name e) CEPH_CAPABILITIES])%list.
Proof.
  intros Hp Hb Hc. cbv zeta. unfold refresh_request.
  rewrite (bind_ok _ _ _ _ _ (render_config_waiting e w Hp)).
  unfold request_ceph_pool. rewrite Hb, Hc. cbn. rewrite <- app_assoc.
  unfold config_get.
  repeat split.
  destruct (config e !! "ceph-osd-replication-count");
    destruct (config e !! "ceph-pool-weight"); reflexivity.
Qed.

Lemma refresh_request_requests_when_deferred_witness :
  let e := mkEnv "ceph-nfs" "node-0" ∅ true true false (fun _ => 0%Z) "k3x9q2ab" true
             (fun target => Some "text") (inr []) false "10.0.0.7" ∅ (fun _ => None) in
  (refresh_request e world0).1 = Ok tt
  /\ deferred (event (refresh_request e world0).2) = true
  /\ stored (refresh_request e world0).2 = stored world0
  /\ files (refresh_request e world0).2 = files world0
  /\ trace (refresh_request e world0).2
     = (trace world0
        ++ [CreateReplicatedPool (pool_name e) "ganesha"
              (config e !! "ceph-osd-replication-count")
              (config e !! "ceph-pool-weight") [];
            RequestCephPermissions (app_name e) CEPH_CAPABILITIES])%list.
Proof.
  intros e.
  exact (refresh_request_requests_when_deferred e world0 [] eq_refl eq_refl eq_refl).
Defined.

(** ** Retrying the bootstrap *)

(** X12: a bootstrap that stopped after the index put is completed by
    the next attempt, which starts over.  If the counter put of a first
    attempt fails and both puts of a second attempt succeed, the pool has
    received the empty index twice and then the counter 1000, the latch
    is set by the second attempt only, the event of the second attempt
    is not deferred, and the stored flags are as they were. *)
Theorem bootstrap_retry_starts_over (e1 e2 : Env) (w : World) :
  proc e1 (index_put e1) = 0%Z -> proc e1 (counter_put e1) <> 0%Z ->
  proc e2 (index_put e2) = 0%Z -> proc e2 (counter_put e2) = 0%Z ->
  let w1 := (bootstrap e1 w).2 in
  let w2 := (bootstrap e2 (with_event fresh_event w1)).2 in
  deferred (event w1) = true /\ latch w1 = latch w
  /\ objects w2 = (objects w ++ [("ganesha-export-index", "");
                                 ("ganesha-export-index", "");
                                 ("ganesha-export-counter", "1000")])%list
  /\ latch w2 = true
  /\ deferred (event w2) = false
  /\ stored w2 = stored w.
Proof.
  intros Hi1 Hc1 Hi2 Hc2 w1 w2.
  destruct (bootstrap_counter_failed e1 w Hi1 Hc1) as (_ & _ & Ho1 & Hp1 & Hs1 & Hd1 & _).
  fold w1 in Ho1, Hp1, Hs1, Hd1.
  destruct (bootstrap_done e2 (with_event fresh_event w1) Hi2 Hc2)
    as (_ & _ & Ho2 & Hl2 & _ & Hs2 & He2 & _).
  fold w2 in Ho2, Hl2, Hs2, He2.
  split; [exact Hd1|]. split; [unfold latch; rewrite Hp1; reflexivity|].
  split; [|split; [exact Hl2|split]].
  - rewrite Ho2. cbn [objects with_event]. rewrite Ho1, <- app_assoc. reflexivity.
  - rewrite He2. reflexivity.
  - rewrite Hs2. exact Hs1.
Qed.

Lemma bootstrap_retry_starts_over_witness :
  let e1 := mkEnv "ceph-nfs" "node-0" ∅ true true true
              (fun argv => if decide (argv = index_put env0) then 0%Z else 1%Z)
              "k3x9q2ab" true (fun target => Some "text") (inr []) false "10.0.0.7"
              ∅ (fun _ => None) in
  let w1 := (bootstrap e1 world0).2 in
  let w2 := (bootstrap env0 (with_event fresh_event w1)).2 in
  deferred (event w1) = true /\ latch w1 = latch world0
  /\ objects w2 = (objects world0 ++ [("ganesha-export-index", "");
                                      ("ganesha-export-index", "");
                                      ("ganesha-export-counter", "1000")])%list
  /\ latch w2 = true
  /\ deferred (event w2) = false
  /\ stored w2 = stored world0.
Proof.
  intros e1.
  apply (bootstrap_retry_starts_over e1 env0 world0);
    [vm_compute; reflexivity|vm_compute; discriminate|reflexivity|reflexivity].
Defined.

(** ** Restarting only when a file changed *)

Section Restart.
Context (e : Env) (t1 t2 t3 : string).
Hypothesis H1 : template e GANESHA_CONF = Some t1.
Hypothesis H2 : template e CEPH_CONF = Some t2.
Hypothesis H3 : template e GANESHA_KEYRING = Some t3.

Lemma _render_configs_returned w :
  _render_configs e w = (Ok tt, rendered t1 t2 t3 w).
Proof.
  unfold _render_configs. cbn [map fst RESTART_MAP for_]. unfold render.
  rewrite H1, H2, H3. reflexivity.
Qed.

Lemma rendered_files_lookup w target :
  In target (map fst RESTART_MAP) ->
  rendered_files t1 t2 t3 w !! target = template e target.
Proof.
  assert (GANESHA_CONF <> CEPH_CONF) by (vm_compute; discriminate).
  assert (GANESHA_CONF <> GANESHA_KEYRING) by (vm_compute; discriminate).
  assert (CEPH_CONF <> GANESHA_KEYRING) by (vm_compute; discriminate).
  unfold rendered_files. cbn [map fst RESTART_MAP In].
  intros [<-|[<-|[<-|[]]]].
  - rewrite H1, !lookup_insert_ne, lookup_insert_eq by auto. reflexivity.
  - rewrite H2, lookup_insert_ne, lookup_insert_eq by auto. reflexivity.
  - rewrite H3, lookup_insert_eq. reflexivity.
Qed.

Lemma changed_iff w target :
  In target (map fst RESTART_MAP) ->
  Some (path_hash target (rendered t1 t2 t3 w))
  <> dict_get target (map (fun p : string * list string => (p.1, path_hash p.1 w)) RESTART_MAP)
  <-> ~ target_unchanged e w target.
Proof.
  intros Hin. unfold path_hash, target_unchanged.
  change (files (rendered t1 t2 t3 w)) with (rendered_files t1 t2 t3 w).
  rewrite (rendered_files_lookup w target Hin).
  assert (Hget : dict_get target
            (map (fun p : string * list string => (p.1, files w !! p.1)) RESTART_MAP)
          = Some (files w !! target)).
  { cbn [map fst RESTART_MAP In] in Hin. destruct Hin as [<-|[<-|[<-|[]]]];
      vm_compute; reflexivity. }
  rewrite Hget. split; intros H Heq; apply H; congruence.
Qed.

Lemma services_to_restart w :
  ordered_unique []
    (concat (map snd
       (filter (fun p : string * list string =>
                  Some (path_hash p.1 (rendered t1 t2 t3 w))
                  <> dict_get p.1
                       (map (fun p0 : string * list string => (p0.1, path_hash p0.1 w))
                          RESTART_MAP))
          [(GANESHA_CONF, SERVICES); (CEPH_CONF, SERVICES); (GANESHA_KEYRING, SERVICES)])))
  = if decide (nothing_to_render e w) then [] else ["nfs-ganesha"].
Proof.
  pose proof (changed_iff w GANESHA_CONF) as C1.
  pose proof (changed_iff w CEPH_CONF) as C2.
  pose proof (changed_iff w GANESHA_KEYRING) as C3.
  cbn [map fst RESTART_MAP In] in C1, C2, C3.
  specialize (C1 (or_introl eq_refl)).
  specialize (C2 (or_intror (or_introl eq_refl))).
  specialize (C3 (or_intror (or_intror (or_introl eq_refl)))).
  assert (Hiff : nothing_to_render e w
                 <-> target_unchanged e w GANESHA_CONF
                     /\ target_unchanged e w CEPH_CONF
                     /\ target_unchanged e w GANESHA_KEYRING).
  { unfold nothing_to_render. cbn [map fst RESTART_MAP].
    rewrite !Forall_cons. pose proof (Forall_nil_2 (target_unchanged e w)). tauto. }
  rewrite !filter_cons, filter_nil. cbn [fst].
  repeat case_decide; first [reflexivity|exfalso; tauto].
Qed.

Lemma restart_on_change_default w :
  exists w2,
    restart_on_change e RESTART_MAP [] (_render_configs e) w = (Ok tt, w2)
    /\ files w2 = rendered_files t1 t2 t3 w
    /\ stored w2 = stored w /\ event w2 = event w /\ log w2 = log w
    /\ trace w2
       = (trace (rendered t1 t2 t3 w)
          ++ if decide (nothing_to_render e w) then []
             else [Exec restart_nfs_ganesha (proc e restart_nfs_ganesha)])%list.
Proof.
  unfold restart_on_change. unfold bind at 1. unfold get at 1.
  unfold bind at 1. rewrite _render_configs_returned.
  unfold bind at 1. unfold get at 1.
  change (filter ?P RESTART_MAP)
    with (filter P [(GANESHA_CONF, SERVICES); (CEPH_CONF, SERVICES);
                    (GANESHA_KEYRING, SERVICES)]).
  rewrite services_to_restart.
  destruct (decide (nothing_to_render e w)).
  - eexists. split; [reflexivity|]. rewrite app_nil_r. repeat split.
  - cbn [for_ dict_get]. unfold service_restart. unfold bind at 1.
    unfold bind at 1. rewrite call_eq.
    eexists. split; [reflexivity|]. cbn [snd].
    case_decide; repeat split.
Qed.

End Restart.

(** X13: a render pass restarts the NFS server only when a file
    changed, and then once.  With the pools available and every target
    rendering, after [render_config] each tracked file holds its
    rendered text, and the pass has issued no restart if the three files
    already held their texts and exactly one restart of nfs-ganesha
    otherwise (the restart goes through the library decorator, to which
    the handler hands no restart function of its own). *)
Theorem render_restarts_once_iff_changed (e : Env) (w : World) :
  pools_available e = true -> renderable e = true ->
  let r := render_config e w in
  (forall target, In target (map fst RESTART_MAP) ->
                  files r.2 !! target = template e target)
  /\ restarts_so_far r.2
     = (restarts_so_far w
        ++ if decide (nothing_to_render e w) then []
           else [Exec restart_nfs_ganesha (proc e restart_nfs_ganesha)])%list.
Proof.
  intros Hp Hr. cbv zeta.
  apply renderable_inv in Hr as (Hm & [t1 H1] & [t2 H2] & [t3 H3]).
  destruct (render_config e w) as [res w'] eqn:E. cbn [snd]. revert E.
  unfold render_config. rewrite Hp. cbn [negb]. cbv zeta.
  unfold mkdir. rewrite Hm.
  unfold bind at 1. unfold emit at 1. unfold modify at 1.
  unfold bind at 1. unfold logging at 1. unfold modify at 1.
  match goal with |- context [bind (restart_on_change e _ _ _) ?k ?w0] =>
    destruct (restart_on_change_default e t1 t2 t3 H1 H2 H3 w0)
      as (w2 & E2 & Hf & _ & _ & _ & Ht);
    rewrite (bind_ok _ k _ _ _ E2)
  end.
  cbn [bind logging set_is_started update_status emit modify fst snd].
  intros [= _ <-]. split.
  - intros target Hin. cbn [files with_log with_trace with_stored].
    rewrite Hf. apply (rendered_files_lookup e t1 t2 t3 H1 H2 H3 _ target Hin).
  - unfold restarts_so_far.
    cbn [trace with_log with_trace with_stored]. rewrite Ht.
    cbn [trace rendered with_files with_trace with_log].
    rewrite !filter_app.
    change (nothing_to_render e (with_log _ (with_trace _ w)))
      with (nothing_to_render e w).
    destruct (decide (nothing_to_render e w)); cbn; rewrite ?app_nil_r; reflexivity.
Qed.

Lemma render_restarts_once_iff_changed_witness :
  (nothing_to_render env0 world0 -> False)
  /\ restarts_so_far (render_config env0 world0).2
     = [Exec restart_nfs_ganesha 0%Z]
  /\ nothing_to_render env0 (render_config env0 world0).2
  /\ restarts_so_far (render_config env0 (render_config env0 world0).2).2
     = [Exec restart_nfs_ganesha 0%Z].
Proof.
  assert (N0 : nothing_to_render env0 world0 -> False).
  { intros H. apply Forall_cons in H as [H _]. discriminate H. }
  assert (N1 : nothing_to_render env0 (render_config env0 world0).2).
  { repeat (apply Forall_cons_2; [vm_compute; reflexivity|]). apply Forall_nil_2. }
  pose proof (proj2 (render_restarts_once_iff_changed env0 world0 eq_refl eq_refl)) as R0.
  pose proof (proj2 (render_restarts_once_iff_changed env0 (render_config env0 world0).2
                       eq_refl eq_refl)) as R1.
  rewrite decide_False in R0 by exact N0.
  rewrite decide_True in R1 by exact N1.
  rewrite app_nil_r in R1. rewrite R0 in R1.
  exact (conj N0 (conj R0 (conj N1 R1))).
Defined.

(** ** A healthy follower *)


